(** * Recurrence engine of the task manager: rule parser, next-occurrence
      calculator and instance generator ([backend/services/recurrence.py]).

    The Python code is embedded shallowly:
    - text is [string], read as ASCII text (the rule grammar is ASCII; bytes
      above 127 are kept as they are and are never white space);
    - a raised exception is the [Raise] case of [result];
    - the [parts] dictionary of the parser is a [gmap string string];
    - [datetime.date] is a record of year, month and day, with the
      proleptic Gregorian ordinal arithmetic of the [datetime] module;
    - the instance generator runs in a small state-and-exception monad over
      a [World]: the SQLAlchemy session, the heap of Python list objects and
      the counters of the [uuid4()] and [datetime.utcnow()] calls made so far. *)

From Stdlib Require Import ZArith List Ascii String Bool Lia.
From stdpp Require Import gmap strings sorting.
Import ListNotations.

Local Open Scope string_scope.
Local Open Scope Z_scope.

(** ** Exceptions *)

Inductive exn : Type :=
| ValueError
| IndexError
| OverflowError.

Inductive result (A : Type) : Type :=
| OK (a : A)
| Raise (e : exn).

Arguments OK {A} a.
Arguments Raise {A} e.

Definition rbind {A B : Type} (r : result A) (k : A -> result B) : result B :=
  match r with
  | OK a => k a
  | Raise e => Raise e
  end.

Notation "'try!' x <- r ; k" := (rbind r (fun x => k))
  (at level 10, x name, r at level 100, k at level 200).

(** ** Python [str] operations used by the parser *)

Module PyStr.

(** White space of [str.strip()] in the ASCII range: TAB..CR, FS..US and
    the blank. *)
Definition is_space (c : ascii) : bool :=
  let n := Z.of_nat (nat_of_ascii c) in
  ((9 <=? n) && (n <=? 13)) || ((28 <=? n) && (n <=? 32)).

Definition is_digit (c : ascii) : bool :=
  let n := Z.of_nat (nat_of_ascii c) in (48 <=? n) && (n <=? 57).

Definition digit_val (c : ascii) : Z := Z.of_nat (nat_of_ascii c) - 48.

Definition upper_char (c : ascii) : ascii :=
  let n := nat_of_ascii c in
  if ((97 <=? Z.of_nat n) && (Z.of_nat n <=? 122))%Z
  then ascii_of_nat (n - 32) else c.

(** [s.upper()] *)
Fixpoint upper (s : string) : string :=
  match s with
  | EmptyString => EmptyString
  | String c s' => String (upper_char c) (upper s')
  end.

Fixpoint lstrip (s : string) : string :=
  match s with
  | EmptyString => EmptyString
  | String c s' => if is_space c then lstrip s' else s
  end.

Fixpoint rstrip (s : string) : string :=
  match s with
  | EmptyString => EmptyString
  | String c s' =>
      match rstrip s' with
      | EmptyString => if is_space c then EmptyString else String c EmptyString
      | r => String c r
      end
  end.

(** [s.strip()] *)
Definition strip (s : string) : string := rstrip (lstrip s).

(** [s.split(sep)] for a one-character separator: never empty, empty
    pieces are kept. *)
Fixpoint split (sep : ascii) (s : string) : list string :=
  match s with
  | EmptyString => [EmptyString]
  | String c s' =>
      if Ascii.eqb c sep then EmptyString :: split sep s'
      else match split sep s' with
           | h :: t => String c h :: t
           | [] => [String c EmptyString]
           end
  end.

(** [s.split(sep, 1)] when [sep in s]: the text before and after the
    first separator; [None] when [sep not in s]. *)
Fixpoint split_once (sep : ascii) (s : string) : option (string * string) :=
  match s with
  | EmptyString => None
  | String c s' =>
      if Ascii.eqb c sep then Some (EmptyString, s')
      else match split_once sep s' with
           | Some (k, v) => Some (String c k, v)
           | None => None
           end
  end.

(** Truth value of a string: [bool(s)]. *)
Definition truthy (s : string) : bool :=
  match s with EmptyString => false | _ => true end.

End PyStr.

(** ** [int(str)] in base ten *)

Module PyInt.
Import PyStr.

(** Digits with single underscores between them, as [int()] accepts. *)
Fixpoint digits (acc : Z) (after_digit : bool) (s : string) : option Z :=
  match s with
  | EmptyString => if after_digit then Some acc else None
  | String c s' =>
      if is_digit c then digits (10 * acc + digit_val c) true s'
      else if Ascii.eqb c "_"%char
           then (if after_digit then digits acc false s' else None)
           else None
  end.

(** [int(s)]: surrounding white space is dropped, then an optional sign
    and the digits. The conversion is unbounded (no digit-count limit). *)
Definition int (s : string) : result Z :=
  let body := strip s in
  let parsed :=
    match body with
    | String "+" rest => digits 0 false rest
    | String "-" rest => option_map Z.opp (digits 0 false rest)
    | _ => digits 0 false body
    end in
  match parsed with
  | Some n => OK n
  | None => Raise ValueError
  end.

End PyInt.

(** ** [datetime.date]: the proleptic Gregorian calendar *)

Module Calendar.

Definition MINYEAR : Z := 1.
Definition MAXYEAR : Z := 9999.
(** [date.max.toordinal()] *)
Definition MAXORDINAL : Z := 3652059.

Definition is_leap (year : Z) : bool :=
  (year mod 4 =? 0) && (negb (year mod 100 =? 0) || (year mod 400 =? 0)).

(** Number of days before January 1st of [year]. *)
Definition days_before_year (year : Z) : Z :=
  let y := year - 1 in
  y * 365 + y / 4 - y / 100 + y / 400.

(** The table [_DAYS_IN_MONTH]. *)
Definition DAYS_IN_MONTH (month : Z) : Z :=
  match month with
  | 1 => 31 | 2 => 28 | 3 => 31 | 4 => 30 | 5 => 31 | 6 => 30
  | 7 => 31 | 8 => 31 | 9 => 30 | 10 => 31 | 11 => 30 | 12 => 31
  | _ => -1
  end.

(** The table [_DAYS_BEFORE_MONTH]. *)
Definition DAYS_BEFORE_MONTH (month : Z) : Z :=
  match month with
  | 1 => 0 | 2 => 31 | 3 => 59 | 4 => 90 | 5 => 120 | 6 => 151
  | 7 => 181 | 8 => 212 | 9 => 243 | 10 => 273 | 11 => 304 | 12 => 334
  | _ => -1
  end.

Definition days_in_month (year month : Z) : Z :=
  if (month =? 2) && is_leap year then 29 else DAYS_IN_MONTH month.

Definition days_before_month (year month : Z) : Z :=
  DAYS_BEFORE_MONTH month + (if (2 <? month) && is_leap year then 1 else 0).

(** [calendar.monthrange(year, month)[1]]: the length of the month (the
    code only calls it with a month in 1..12). *)
Definition monthrange_ndays (year month : Z) : Z :=
  DAYS_IN_MONTH month + (if (month =? 2) && is_leap year then 1 else 0).

Record date : Type := Date { year : Z; month : Z; day : Z }.

(** The fields a [date] object can hold ([_check_date_fields]). *)
Definition check_date_fields (y m d : Z) : bool :=
  (MINYEAR <=? y) && (y <=? MAXYEAR) && (1 <=? m) && (m <=? 12)
  && (1 <=? d) && (d <=? days_in_month y m).

Definition valid_date (d : date) : Prop :=
  check_date_fields (year d) (month d) (day d) = true.

(** The range of a C [int]: [date()] converts its arguments to it. *)
Definition INT_MIN : Z := - 2 ^ 31.
Definition INT_MAX : Z := 2 ^ 31 - 1.

Definition fits_int (z : Z) : bool := (INT_MIN <=? z) && (z <=? INT_MAX).

(** The constructor [date(year, month, day)]: an argument that does not fit
    a C [int] raises OverflowError; after that a field out of its range
    raises ValueError. *)
Definition date_new (y m d : Z) : result date :=
  if fits_int y && fits_int m && fits_int d then
    if check_date_fields y m d then OK (Date y m d) else Raise ValueError
  else Raise OverflowError.

Definition ymd2ord (y m d : Z) : Z :=
  days_before_year y + days_before_month y m + d.

Definition toordinal (d : date) : Z := ymd2ord (year d) (month d) (day d).

(** Month and day of the [n]-th day (from 0) of a year, as [_ord2ymd]
    finds them: an estimate of the month, corrected when too large. *)
Definition month_day_of (leapyear : bool) (n : Z) : Z * Z :=
  let month := Z.shiftr (n + 50) 5 in
  let preceding :=
    DAYS_BEFORE_MONTH month + (if (2 <? month) && leapyear then 1 else 0) in
  if n <? preceding then
    let month' := month - 1 in
    let preceding' :=
      preceding
      - (DAYS_IN_MONTH month' + (if (month' =? 2) && leapyear then 1 else 0)) in
    (month', n - preceding' + 1)
  else (month, n - preceding + 1).

Definition DI400Y : Z := 146097.
Definition DI100Y : Z := 36524.
Definition DI4Y : Z := 1461.

Definition ord2ymd (ordinal : Z) : date :=
  let n := ordinal - 1 in
  let n400 := n / DI400Y in
  let n := n mod DI400Y in
  let n100 := n / DI100Y in
  let n := n mod DI100Y in
  let n4 := n / DI4Y in
  let n := n mod DI4Y in
  let n1 := n / 365 in
  let n := n mod 365 in
  let y := n400 * 400 + 1 + n100 * 100 + n4 * 4 + n1 in
  if (n1 =? 4) || (n100 =? 4) then Date (y - 1) 12 31
  else
    let leapyear := (n1 =? 3) && (negb (n4 =? 24) || (n100 =? 3)) in
    let '(m, d) := month_day_of leapyear n in
    Date y m d.

(** [d.weekday()]: Monday is 0, Sunday is 6. *)
Definition weekday (d : date) : Z := (toordinal d + 6) mod 7.

(** [d + timedelta(days=k)] *)
Definition date_add_days (d : date) (k : Z) : result date :=
  let o := toordinal d + k in
  if (0 <? o) && (o <=? MAXORDINAL) then OK (ord2ymd o)
  else Raise OverflowError.

(** Comparison of dates is that of (year, month, day). *)
Definition date_ltb (a b : date) : bool :=
  (year a <? year b)
  || ((year a =? year b)
      && ((month a <? month b)
          || ((month a =? month b) && (day a <? day b)))).

Definition date_lt (a b : date) : Prop := date_ltb a b = true.

(** *** [datetime.datetime] and [datetime.timedelta] *)

(** A time difference, as its total number of microseconds. *)
Definition timedelta : Type := Z.

Record datetime : Type := DateTime {
  dt_date : date;
  hour : Z;
  minute : Z;
  second : Z;
  microsecond : Z;
  tzinfo : option Z   (* UTC offset in minutes; [None] for a naive value *)
}.

(** [datetime(year, month, day)]: midnight, naive. *)
Definition datetime_new (y m d : Z) : result datetime :=
  try! dd <- date_new y m d;
  OK (DateTime dd 0 0 0 0 None).

(** [dt.replace(tzinfo=None)] *)
Definition replace_tzinfo_None (dt : datetime) : datetime :=
  DateTime (dt_date dt) (hour dt) (minute dt) (second dt) (microsecond dt) None.

Definition US_PER_DAY : Z := 86400 * 1000000.

(** Microseconds from the start of day 0 to the wall-clock fields. *)
Definition datetime_us (dt : datetime) : Z :=
  (toordinal (dt_date dt) * 86400
   + hour dt * 3600 + minute dt * 60 + second dt) * 1000000
  + microsecond dt.

(** [a - b] for two naive datetimes. *)
Definition datetime_sub (a b : datetime) : timedelta :=
  datetime_us a - datetime_us b.

(** [dt - delta]: the result keeps [dt]'s tzinfo; out of the range of
    [datetime] it raises [OverflowError]. *)
Definition datetime_sub_timedelta (dt : datetime) (delta : timedelta)
  : result datetime :=
  let total := datetime_us dt - delta in
  let days := total / US_PER_DAY in
  let rest := total mod US_PER_DAY in
  if (0 <? days) && (days <=? MAXORDINAL) then
    let secs := rest / 1000000 in
    OK (DateTime (ord2ymd days)
                 (secs / 3600) ((secs mod 3600) / 60) (secs mod 60)
                 (rest mod 1000000) (tzinfo dt))
  else Raise OverflowError.

(** Comparison of naive datetimes: date first, then time of day. *)
Definition datetime_ltb (a b : datetime) : bool :=
  let tod x := ((hour x * 60 + minute x) * 60 + second x) * 1000000 + microsecond x in
  date_ltb (dt_date a) (dt_date b)
  || (negb (date_ltb (dt_date b) (dt_date a)) && (tod a <? tod b)).

(** [date.fromisoformat(s)]: the format [YYYY-MM-DD] of the rule grammar
    is read (the only one before Python 3.11); any other text raises
    [ValueError]. *)
Definition fromisoformat (s : string) : result date :=
  match s with
  | String y1 (String y2 (String y3 (String y4 (String "-"
      (String m1 (String m2 (String "-" (String d1 (String d2 EmptyString))))))))) =>
      if forallb PyStr.is_digit [y1; y2; y3; y4; m1; m2; d1; d2] then
        let v := PyStr.digit_val in
        date_new (((v y1 * 10 + v y2) * 10 + v y3) * 10 + v y4)
                 (v m1 * 10 + v m2) (v d1 * 10 + v d2)
      else Raise ValueError
  | _ => Raise ValueError
  end.

End Calendar.

(** ** The rule parser and the next-occurrence calculator *)

Module Recurrence.
Import Calendar.

Definition DAY_MAP : gmap string Z :=
  list_to_map
    [("MO", 0); ("TU", 1); ("WE", 2); ("TH", 3); ("FR", 4); ("SA", 5); ("SU", 6)].

Record RecurrenceConfig : Type := {
  freq : string;
  by_day : option (list string);
  by_month_day : option Z;
  until : option date
}.

(** One turn of the loop over the segments: a segment holding [=] sets
    [parts[key.strip().upper()] = value.strip()], any other is skipped. *)
Definition add_segment (parts : gmap string string) (segment : string)
  : gmap string string :=
  match PyStr.split_once "="%char segment with
  | Some (key, value) => <[PyStr.upper (PyStr.strip key) := PyStr.strip value]> parts
  | None => parts
  end.

(** The dictionary [parts] after the loop. *)
Definition rule_parts (rule : string) : gmap string string :=
  fold_left add_segment (PyStr.split ";"%char rule) ∅.

(** [[d.strip() for d in value.split(",") if d.strip()]] *)
Definition by_day_codes (value : string) : list string :=
  filter (fun d => PyStr.truthy d = true)
         (map PyStr.strip (PyStr.split ","%char value)).

Definition parse_recurrence_rule (rule : string) : result RecurrenceConfig :=
  let parts := rule_parts rule in
  let freq := default "DAILY" (parts !! "FREQ") in
  let by_day := by_day_codes <$> parts !! "BYDAY" in
  try! by_month_day <-
    match parts !! "BYMONTHDAY" with
    | Some v => try! n <- PyInt.int v; OK (Some n)
    | None => OK None
    end;
  try! until <-
    match parts !! "UNTIL" with
    | Some v => try! d <- fromisoformat v; OK (Some d)
    | None => OK None
    end;
  OK {| freq := freq; by_day := by_day;
        by_month_day := by_month_day; until := until |}.

(** [sorted(DAY_MAP[d] for d in by_day if d in DAY_MAP)] *)
Definition target_days_of (codes : list string) : list Z :=
  merge_sort Z.le (omap (fun d => DAY_MAP !! d) codes).

(** The branch on [config.freq] (lines 75-113 of the source): the candidate
    [next_date], or [None] where the source returns [None] at once. *)
Definition next_date_of (config : RecurrenceConfig) (base : date)
  : result (option date) :=
  if String.eqb (freq config) "DAILY" then
    try! next_date <- date_add_days base 1; OK (Some next_date)
  else if String.eqb (freq config) "WEEKLY" then
    match by_day config with
    | Some (code :: codes) =>
        let target_days := target_days_of (code :: codes) in
        let current_weekday := weekday base in
        match find (fun target => current_weekday <? target) target_days with
        | Some target =>
            try! next_date <- date_add_days base (target - current_weekday);
            OK (Some next_date)
        | None =>
            (* Wrap to next week *)
            try! first <-
              match target_days with
              | t :: _ => OK t
              | [] => Raise IndexError
              end;
            let days_until := 7 - current_weekday + first in
            try! next_date <- date_add_days base days_until;
            OK (Some next_date)
        end
    | _ =>
        try! next_date <- date_add_days base 7; OK (Some next_date)
    end
  else if String.eqb (freq config) "MONTHLY" then
    let target_day :=
      match by_month_day config with
      | Some n => if n =? 0 then day base else n
      | None => day base
      end in
    let '(next_month, next_year) :=
      if month base =? 12 then (1, year base + 1)
      else (month base + 1, year base) in
    let max_day := monthrange_ndays next_year next_month in
    let actual_day := Z.min target_day max_day in
    try! next_date <- date_new next_year next_month actual_day;
    OK (Some next_date)
  else OK None.

(** [compute_next_due_date(current_due, rule)]; [today] is the value of
    [date.today()], read only when [current_due] is [None]. *)
Definition compute_next_due_date (today : date)
    (current_due : option date) (rule : string) : result (option date) :=
  try! config <- parse_recurrence_rule rule;
  let base := default today current_due in
  try! candidate <- next_date_of config base;
  match candidate with
  | None => OK None
  | Some next_date =>
      (* Check UNTIL clause *)
      match until config with
      | Some u => if date_ltb u next_date then OK None else OK (Some next_date)
      | None => OK (Some next_date)
      end
  end.

End Recurrence.

(** ** The instance generator *)

Module Generator.
Import Calendar Recurrence.

Definition UUID : Type := Z.
(** A reference to a Python list object. *)
Definition loc : Type := positive.

Record Task : Type := {
  task_id : UUID;
  title : string;
  description : option string;
  completed : bool;
  task_created_at : datetime;
  updated_at : datetime;
  task_user_id : string;
  priority : string;
  tags : option loc;             (* [None] is Python's [None] *)
  due_date : option date;
  recurrence_rule : option string;
  recurrence_group_id : option UUID
}.

Record Reminder : Type := {
  reminder_id : UUID;
  reminder_task_id : UUID;
  reminder_user_id : string;
  trigger_at : option datetime;
  status : string;
  reminder_created_at : datetime
}.

(** [ReminderStatus.PENDING.value] *)
Definition PENDING : string := "pending".

Inductive Entity : Type :=
| ETask (t : Task)
| EReminder (r : Reminder).

(** What the generator reads from outside: the value of the [n]-th call
    of [uuid4()], of the [n]-th call of [datetime.utcnow()], and
    [date.today()]. *)
Record Env : Type := {
  uuid4_at : nat -> UUID;
  utcnow_at : nat -> datetime;
  today : date
}.

Record World : Type := {
  uuid_calls : nat;
  clock_calls : nat;
  heap : gmap loc (list string);       (* the list objects *)
  reminders_table : list Reminder;     (* rows of the reminders table *)
  session_new : list Entity            (* [session.add] calls, in order *)
}.

(** State and exceptions: an exception keeps the state reached so far. *)
Definition M (A : Type) : Type := World -> World * result A.

Definition ret {A : Type} (a : A) : M A := fun w => (w, OK a).

Definition bind {A B : Type} (m : M A) (k : A -> M B) : M B :=
  fun w =>
    match m w with
    | (w', OK a) => k a w'
    | (w', Raise e) => (w', Raise e)
    end.

Definition lift {A : Type} (r : result A) : M A := fun w => (w, r).

Notation "'do!' x <- m ; k" := (bind m (fun x => k))
  (at level 10, x name, m at level 100, k at level 200).

Fixpoint for_each {A : Type} (body : A -> M unit) (l : list A) : M unit :=
  match l with
  | [] => ret tt
  | x :: l' => do! _ <- body x; for_each body l'
  end.

Section WithEnv.
Variable env : Env.

Definition uuid4 : M UUID := fun w =>
  ({| uuid_calls := S (uuid_calls w); clock_calls := clock_calls w;
      heap := heap w; reminders_table := reminders_table w;
      session_new := session_new w |},
   OK (uuid4_at env (uuid_calls w))).

Definition utcnow : M datetime := fun w =>
  ({| uuid_calls := uuid_calls w; clock_calls := S (clock_calls w);
      heap := heap w; reminders_table := reminders_table w;
      session_new := session_new w |},
   OK (utcnow_at env (clock_calls w))).

(** A new list object holding [content]. *)
Definition new_list (content : list string) : M loc := fun w =>
  let l := fresh (dom (heap w)) in
  ({| uuid_calls := uuid_calls w; clock_calls := clock_calls w;
      heap := <[l := content]> (heap w);
      reminders_table := reminders_table w;
      session_new := session_new w |},
   OK l).

(** [list(task.tags) if task.tags else []] *)
Definition copy_tags (t : Task) : M loc := fun w =>
  match tags t with
  | Some l =>
      match heap w !! l with
      | Some (x :: xs) => new_list (x :: xs) w
      | _ => new_list [] w
      end
  | None => new_list [] w
  end.

Definition session_add (e : Entity) : M unit := fun w =>
  ({| uuid_calls := uuid_calls w; clock_calls := clock_calls w;
      heap := heap w; reminders_table := reminders_table w;
      session_new := session_new w ++ [e] |},
   OK tt).

(** [select(Reminder).where(Reminder.task_id == id)], all rows. *)
Definition select_reminders (id : UUID) : M (list Reminder) := fun w =>
  (w, OK (filter (fun r => reminder_task_id r =? id) (reminders_table w))).

(** [Task(title=..., ..., completed=False)]: the keyword arguments are
    given, then [id], [created_at] and [updated_at] take their default
    factories. *)
Definition Task_new (title : string) (description : option string)
    (user_id : string) (priority : string) (tags : loc) (due_date : date)
    (recurrence_rule : string) (recurrence_group_id : UUID)
    (completed : bool) : M Task :=
  do! id <- uuid4;
  do! created <- utcnow;
  do! updated <- utcnow;
  ret {| task_id := id; title := title; description := description;
         completed := completed; task_created_at := created;
         updated_at := updated; task_user_id := user_id;
         priority := priority; tags := Some tags;
         due_date := Some due_date;
         recurrence_rule := Some recurrence_rule;
         recurrence_group_id := Some recurrence_group_id |}.

Definition Reminder_new (task_id : UUID) (user_id : string)
    (trigger_at : datetime) (status : string) : M Reminder :=
  do! id <- uuid4;
  do! created <- utcnow;
  ret {| reminder_id := id; reminder_task_id := task_id;
         reminder_user_id := user_id; trigger_at := Some trigger_at;
         status := status; reminder_created_at := created |}.

(** The body of the loop over the parent's reminders. *)
Definition inherit_reminder (task new_task : Task) (next_due : date)
    (r : Reminder) : M unit :=
  match due_date task, trigger_at r with
  | Some due, Some trigger =>
      do! due_dt <- lift (datetime_new (year due) (month due) (day due));
      let offset := datetime_sub due_dt (replace_tzinfo_None trigger) in
      do! next_dt <-
        lift (datetime_new (year next_due) (month next_due) (day next_due));
      do! new_trigger <- lift (datetime_sub_timedelta next_dt offset);
      do! now <- utcnow;
      if datetime_ltb now new_trigger then
        do! new_reminder <-
          Reminder_new (task_id new_task) (task_user_id task) new_trigger PENDING;
        session_add (EReminder new_reminder)
      else ret tt
  | _, _ => ret tt
  end.

Definition generate_next_instance (task : Task) : M (option Task) :=
  match recurrence_rule task with
  | None | Some EmptyString => ret None
  | Some rule =>
      do! next <- lift (compute_next_due_date (today env) (due_date task) rule);
      match next with
      | None => ret None
      | Some next_due =>
          do! new_tags <- copy_tags task;
          do! group <-
            match recurrence_group_id task with
            | Some g => ret g
            | None => uuid4
            end;
          do! new_task <-
            Task_new (title task) (description task) (task_user_id task)
                     (priority task) new_tags next_due rule group false;
          do! _ <- session_add (ETask new_task);
          (* Inherit relative reminders from parent task *)
          do! parent_reminders <- select_reminders (task_id task);
          do! _ <- for_each (inherit_reminder task new_task next_due)
                            parent_reminders;
          ret (Some new_task)
      end
  end.

End WithEnv.

End Generator.

(** ** Statements of the specification, for comparison with the code *)

Module Spec.
Import Calendar Recurrence.

(** The smallest element of a list of ordinals, if any. *)
Fixpoint list_min (l : list Z) : option Z :=
  match l with
  | [] => None
  | x :: l' =>
      match list_min l' with
      | Some m => Some (Z.min x m)
      | None => Some x
      end
  end.

(** The weekday ordinals configured by a [BYDAY] list: the recognised
    codes, mapped through [DAY_MAP]. *)
Definition configured_weekdays (codes : list string) : list Z :=
  omap (fun d => DAY_MAP !! d) codes.

(** WEEKLY with BYDAY, in the specification's words: the smallest
    configured ordinal strictly greater than the reference's weekday is
    reached by their difference; if there is none, the smallest
    configured ordinal of the next week is
    [7 - referenceWeekday + smallestConfiguredWeekday] days ahead. *)
Definition weekly_advance (configured : list Z) (reference_weekday : Z)
  : option Z :=
  match list_min (filter (fun t => reference_weekday < t) configured) with
  | Some t => Some (t - reference_weekday)
  | None =>
      match list_min configured with
      | Some smallest => Some (7 - reference_weekday + smallest)
      | None => None
      end
  end.

(** No UNTIL cutoff applies to the date [d]. *)
Definition within_until (config : RecurrenceConfig) (d : date) : Prop :=
  match until config with
  | Some u => date_ltb u d = false
  | None => True
  end.

(** MONTHLY, in the specification's words: the following calendar month
    and the target day clamped to the length of that month. *)
Definition following_month (d : date) : Z * Z :=
  if month d =? 12 then (year d + 1, 1) else (year d, month d + 1).

Definition monthly_target (d : date) (target_day : Z) : date :=
  let '(y, m) := following_month d in
  Date y m (Z.min target_day (days_in_month y m)).

Import Generator.

(** Midnight of a date, as a naive datetime. *)
Definition midnight (d : date) : datetime := DateTime d 0 0 0 0 None.

(** [newTrigger = midnight(nextDue) - (midnight(due) - trigger)] *)
Abbreviation shifted_trigger due next_due trigger :=
  (datetime_sub_timedelta (midnight next_due)
     (datetime_sub (midnight due) (replace_tzinfo_None trigger))).

(** The reminders attached to the task [id]. *)
Definition reminders_of (id : UUID) (w : World) : list Reminder :=
  filter (fun r => reminder_task_id r =? id) (reminders_table w).

(** What a reminder record says, apart from its own id and creation time. *)
Definition reminder_view (r : Reminder)
  : UUID * string * option datetime * string :=
  (reminder_task_id r, reminder_user_id r, trigger_at r, status r).

(** The reminder inherited from [r], if any: a pending one on the new
    task, at the shifted trigger time, when that time is later than [now]. *)
Definition inherited_reminder (due next_due : date) (now : datetime)
    (new_task_id : UUID) (user_id : string) (r : Reminder)
  : list (UUID * string * option datetime * string) :=
  match trigger_at r with
  | Some trigger =>
      match shifted_trigger due next_due trigger with
      | OK new_trigger =>
          if datetime_ltb now new_trigger
          then [(new_task_id, user_id, Some new_trigger, PENDING)]
          else []
      | Raise _ => []
      end
  | None => []
  end.

(** Every shifted trigger time of the task's reminders is in the range of
    [datetime]. *)
Definition triggers_representable (task : Task) (next_due : date) (w : World)
  : Prop :=
  forall due r trigger,
    due_date task = Some due ->
    r ∈ reminders_of (task_id task) w ->
    trigger_at r = Some trigger ->
    exists new_trigger, shifted_trigger due next_due trigger = OK new_trigger.

(** The strings of the task's tags list ([None] has none). *)
Definition tags_content (w : World) (task : Task) : list string :=
  match tags task with
  | Some l => default [] (heap w !! l)
  | None => []
  end.

End Spec.

(** ** Auxiliary definitions of the proofs *)

Module ProofDefs.
Import Calendar Recurrence Generator Spec.

(** The number of days of a year. *)
Definition year_length (y : Z) : Z := if is_leap y then 366 else 365.

(** [month_day_of] finds a month and a day of that month that lie [n]
    days after the start of the year. *)
Definition month_day_ok (leapyear : bool) (n : nat) : bool :=
  let '(m, d) := month_day_of leapyear (Z.of_nat n) in
  (1 <=? m) && (m <=? 12) && (1 <=? d)
  && (d <=? DAYS_IN_MONTH m + (if (m =? 2) && leapyear then 1 else 0))
  && (DAYS_BEFORE_MONTH m + (if (2 <? m) && leapyear then 1 else 0) + d
      =? Z.of_nat n + 1).

(** The state after the new task has been built and added. *)
Definition task_built (env : Env) (task : Task) (rule : string) (next_due : date)
    (w : World) : Task * World :=
  let new_tags := fresh (dom (heap w)) in
  let drawn := match recurrence_group_id task with
               | Some _ => 0%nat | None => 1%nat end in
  let group := match recurrence_group_id task with
               | Some g => g
               | None => uuid4_at env (uuid_calls w)
               end in
  let new_task :=
    {| task_id := uuid4_at env (uuid_calls w + drawn);
       title := title task; description := description task;
       completed := false;
       task_created_at := utcnow_at env (clock_calls w);
       updated_at := utcnow_at env (S (clock_calls w));
       task_user_id := task_user_id task; priority := priority task;
       tags := Some new_tags; due_date := Some next_due;
       recurrence_rule := Some rule;
       recurrence_group_id := Some group |} in
  (new_task,
   {| uuid_calls := S (uuid_calls w + drawn);
      clock_calls := S (S (clock_calls w));
      heap := <[new_tags := tags_content w task]> (heap w);
      reminders_table := reminders_table w;
      session_new := session_new w ++ [ETask new_task] |}).

End ProofDefs.

(** ** A recurring task with one reminder, for the examples *)

Module Sample.
Import Calendar Generator.

(** A clock that shows [now] at every reading; [uuid4()] counts up. *)
Definition env_at (now : datetime) : Env :=
  {| uuid4_at := fun n => 1000 + Z.of_nat n;
     utcnow_at := fun _ => now;
     today := Date 2025 6 1 |}.

Definition created : datetime := DateTime (Date 2025 6 1) 12 0 0 0 None.

(** Due 2025-06-10, daily, no group id yet. *)
Definition task : Task :=
  {| task_id := 7; title := "water the plants"; description := None;
     completed := true; task_created_at := created; updated_at := created;
     task_user_id := "user-1"; priority := "high"; tags := Some 1%positive;
     due_date := Some (Date 2025 6 10);
     recurrence_rule := Some "FREQ=DAILY";
     recurrence_group_id := None |}.

(** A reminder 15 hours before the due date, already cancelled. *)
Definition reminder : Reminder :=
  {| reminder_id := 50; reminder_task_id := 7; reminder_user_id := "user-1";
     trigger_at := Some (DateTime (Date 2025 6 9) 9 0 0 0 None);
     status := "cancelled"; reminder_created_at := created |}.

Definition world : World :=
  {| uuid_calls := 0; clock_calls := 0;
     heap := {[ 1%positive := ["home"; "garden"] ]};
     reminders_table := [reminder];
     session_new := [] |}.

Definition before_trigger : datetime := DateTime (Date 2025 6 10) 8 59 59 0 None.
Definition at_trigger : datetime := DateTime (Date 2025 6 10) 9 0 0 0 None.

End Sample.

(** * Proofs *)

(** ** The calendar *)

Module CalendarFacts.
Import Calendar ProofDefs.

Lemma is_leap_spec y :
  is_leap y = true <-> y mod 4 = 0 /\ (y mod 100 <> 0 \/ y mod 400 = 0).
Proof.
  unfold is_leap.
  rewrite andb_true_iff, orb_true_iff, negb_true_iff, !Z.eqb_eq, Z.eqb_neq.
  tauto.
Qed.

Lemma days_before_year_succ y :
  days_before_year (y + 1) = days_before_year y + year_length y.
Proof.
  unfold days_before_year, year_length.
  replace (y + 1 - 1) with y by lia.
  destruct (is_leap y) eqn:L.
  - apply is_leap_spec in L. Z.div_mod_to_equations. lia.
  - assert (N : ~ (y mod 4 = 0 /\ (y mod 100 <> 0 \/ y mod 400 = 0))).
    { rewrite <- is_leap_spec. congruence. }
    Z.div_mod_to_equations. lia.
Qed.

Lemma days_before_year_mono y1 y2 :
  y1 <= y2 -> days_before_year y1 <= days_before_year y2.
Proof.
  unfold days_before_year. intros H. Z.div_mod_to_equations. lia.
Qed.

Ltac month_cases m :=
  assert (m = 1 \/ m = 2 \/ m = 3 \/ m = 4 \/ m = 5 \/ m = 6 \/ m = 7
          \/ m = 8 \/ m = 9 \/ m = 10 \/ m = 11 \/ m = 12) by lia;
  repeat match goal with H : _ \/ _ |- _ => destruct H end; subst m.

Lemma check_date_fields_spec y m d :
  check_date_fields y m d = true <->
  1 <= y <= 9999 /\ 1 <= m <= 12 /\ 1 <= d <= days_in_month y m.
Proof.
  unfold check_date_fields, MINYEAR, MAXYEAR.
  rewrite !andb_true_iff, !Z.leb_le. tauto.
Qed.

Lemma check_date_fields_fits y m d :
  check_date_fields y m d = true ->
  fits_int y && fits_int m && fits_int d = true.
Proof.
  intros C. apply check_date_fields_spec in C as (Hy & Hm & Hd).
  assert (days_in_month y m <= 31).
  { unfold days_in_month. month_cases m; destruct (is_leap y); cbn; lia. }
  unfold fits_int, INT_MIN, INT_MAX.
  rewrite !andb_true_iff, !Z.leb_le. lia.
Qed.

(** [date(y, m, d)] succeeds exactly on the fields of a date. *)
Lemma date_new_OK y m d :
  check_date_fields y m d = true -> date_new y m d = OK (Date y m d).
Proof.
  intros C. unfold date_new. rewrite (check_date_fields_fits y m d C), C.
  reflexivity.
Qed.

Lemma date_new_inv y m d x :
  date_new y m d = OK x -> x = Date y m d /\ check_date_fields y m d = true.
Proof.
  unfold date_new. destruct (fits_int y && fits_int m && fits_int d);
    [| discriminate].
  destruct (check_date_fields y m d); [| discriminate].
  intros [= <-]. auto.
Qed.

Lemma day_of_year_bounds y m d :
  1 <= m <= 12 -> 1 <= d <= days_in_month y m ->
  1 <= days_before_month y m + d <= year_length y.
Proof.
  intros Hm Hd. unfold days_before_month, days_in_month, year_length in *.
  month_cases m; destruct (is_leap y); cbn in *; lia.
Qed.

Lemma days_before_month_lt y m1 m2 :
  1 <= m1 -> m1 < m2 -> m2 <= 12 ->
  days_before_month y m1 + days_in_month y m1 <= days_before_month y m2.
Proof.
  intros H1 H12 H2. unfold days_before_month, days_in_month.
  month_cases m1; month_cases m2; try lia; destruct (is_leap y); cbn; lia.
Qed.

(** The ordinal is strictly increasing in (year, month, day). *)
Lemma toordinal_lt a b :
  valid_date a -> valid_date b -> date_lt a b -> toordinal a < toordinal b.
Proof.
  destruct a as [ya ma da], b as [yb mb db].
  unfold valid_date, date_lt, date_ltb, toordinal, ymd2ord; cbn.
  rewrite !check_date_fields_spec.
  intros (Hya & Hma & Hda) (Hyb & Hmb & Hdb) H.
  pose proof (day_of_year_bounds ya ma da Hma Hda) as Ba.
  pose proof (day_of_year_bounds yb mb db Hmb Hdb) as Bb.
  apply orb_true_iff in H as [H | H].
  - apply Z.ltb_lt in H.
    pose proof (days_before_year_succ ya).
    pose proof (days_before_year_mono (ya + 1) yb ltac:(lia)).
    lia.
  - apply andb_true_iff in H as [E H]. apply Z.eqb_eq in E. subst yb.
    apply orb_true_iff in H as [H | H].
    + apply Z.ltb_lt in H.
      pose proof (days_before_month_lt ya ma mb ltac:(lia) H ltac:(lia)).
      lia.
    + apply andb_true_iff in H as [E H]. apply Z.eqb_eq in E. subst mb.
      apply Z.ltb_lt in H. lia.
Qed.

Lemma date_ltb_total a b :
  date_ltb a b = false -> date_ltb b a = false -> a = b.
Proof.
  destruct a as [ya ma da], b as [yb mb db]. unfold date_ltb; cbn.
  rewrite !orb_false_iff, !andb_false_iff, !orb_false_iff, !andb_false_iff,
    !Z.ltb_ge, !Z.eqb_neq.
  intros H1 H2. f_equal; lia.
Qed.

(** Conversely the order of the ordinals is the order of the dates. *)
Lemma toordinal_lt_inv a b :
  valid_date a -> valid_date b -> toordinal a < toordinal b -> date_lt a b.
Proof.
  intros Va Vb H. unfold date_lt.
  destruct (date_ltb a b) eqn:Eab; [reflexivity | exfalso].
  destruct (date_ltb b a) eqn:Eba.
  - pose proof (toordinal_lt b a Vb Va Eba). lia.
  - rewrite (date_ltb_total a b Eab Eba) in H. lia.
Qed.

Lemma month_day_of_spec (leapyear : bool) (n m d : Z) :
  0 <= n < (if leapyear then 366 else 365) ->
  month_day_of leapyear n = (m, d) ->
  1 <= m <= 12
  /\ 1 <= d <= DAYS_IN_MONTH m + (if (m =? 2) && leapyear then 1 else 0)
  /\ DAYS_BEFORE_MONTH m + (if (2 <? m) && leapyear then 1 else 0) + d = n + 1.
Proof.
  intros Hn E.
  assert (A : forallb (month_day_ok leapyear)
                (seq 0 (if leapyear then 366 else 365)) = true)
    by (destruct leapyear; vm_compute; reflexivity).
  rewrite List.forallb_forall in A.
  specialize (A (Z.to_nat n)).
  unfold month_day_ok in A. rewrite Z2Nat.id in A by lia. rewrite E in A.
  rewrite !andb_true_iff, !Z.leb_le, Z.eqb_eq in A.
  assert (I : In (Z.to_nat n) (seq 0 (if leapyear then 366%nat else 365%nat)))
    by (apply List.in_seq; destruct leapyear; lia).
  specialize (A I). tauto.
Qed.

(** [fromordinal] inverts [toordinal] on the whole range of [date]. *)
Lemma ord2ymd_spec o :
  1 <= o <= MAXORDINAL ->
  valid_date (ord2ymd o) /\ toordinal (ord2ymd o) = o.
Proof.
  unfold MAXORDINAL. intros Ho. unfold ord2ymd, DI400Y, DI100Y, DI4Y.
  set (n0 := o - 1).
  set (n400 := n0 / 146097). set (r1 := n0 mod 146097).
  set (n100 := r1 / 36524). set (r2 := r1 mod 36524).
  set (n4 := r2 / 1461). set (r3 := r2 mod 1461).
  set (n1 := r3 / 365). set (r4 := r3 mod 365).
  assert (E0 : n0 = 146097 * n400 + r1 /\ 0 <= r1 < 146097)
    by (subst n400 r1; Z.div_mod_to_equations; lia).
  assert (E1 : r1 = 36524 * n100 + r2 /\ 0 <= r2 < 36524)
    by (subst n100 r2; Z.div_mod_to_equations; lia).
  assert (E2 : r2 = 1461 * n4 + r3 /\ 0 <= r3 < 1461)
    by (subst n4 r3; Z.div_mod_to_equations; lia).
  assert (E3 : r3 = 365 * n1 + r4 /\ 0 <= r4 < 365)
    by (subst n1 r4; Z.div_mod_to_equations; lia).
  clearbody n400 r1 n100 r2 n4 r3 n1 r4. subst n0.
  set (y := n400 * 400 + 1 + n100 * 100 + n4 * 4 + n1).
  assert (Ey : y = n400 * 400 + 1 + n100 * 100 + n4 * 4 + n1) by reflexivity.
  clearbody y.
  destruct ((n1 =? 4) || (n100 =? 4)) eqn:Last.
  - (* the last day of a leap year *)
    assert (L : is_leap (y - 1) = true).
    { apply is_leap_spec. apply orb_true_iff in Last.
      rewrite !Z.eqb_eq in Last. Z.div_mod_to_equations. lia. }
    unfold valid_date, toordinal, ymd2ord, days_before_month, days_in_month; cbn.
    rewrite L; cbn. split.
    + apply check_date_fields_spec. unfold days_in_month; cbn.
      apply orb_true_iff in Last. rewrite !Z.eqb_eq in Last. lia.
    + unfold days_before_year. apply orb_true_iff in Last.
      rewrite !Z.eqb_eq in Last. Z.div_mod_to_equations. lia.
  - apply orb_false_iff in Last. rewrite !Z.eqb_neq in Last.
    set (leapyear := (n1 =? 3) && (negb (n4 =? 24) || (n100 =? 3))).
    assert (L : is_leap y = leapyear).
    { subst leapyear. destruct (is_leap y) eqn:L; symmetry.
      - apply is_leap_spec in L.
        rewrite andb_true_iff, orb_true_iff, negb_true_iff, !Z.eqb_eq, Z.eqb_neq.
        Z.div_mod_to_equations. lia.
      - assert (N : ~ (y mod 4 = 0 /\ (y mod 100 <> 0 \/ y mod 400 = 0)))
          by (rewrite <- is_leap_spec; congruence).
        rewrite andb_false_iff, orb_false_iff, negb_false_iff, !Z.eqb_eq, !Z.eqb_neq.
        Z.div_mod_to_equations. lia. }
    assert (Hr4 : 0 <= r4 < (if leapyear then 366 else 365))
      by (destruct leapyear; lia).
    destruct (month_day_of leapyear r4) as [m d] eqn:MD.
    destruct (month_day_of_spec leapyear r4 m d Hr4 MD) as (Hm & Hd & Hsum).
    assert (Dy : days_before_year y = o - 1 - r4).
    { unfold days_before_year. Z.div_mod_to_equations. lia. }
    unfold valid_date, toordinal, ymd2ord; cbn. split.
    + apply check_date_fields_spec. unfold days_in_month. rewrite L.
      split; [| split; [lia |]].
      * pose proof (days_before_year_mono 10000 y).
        change (days_before_year 10000) with 3652059 in *.
        assert (10000 <= y -> False) by (clear - Ho E3 Dy H; lia).
        assert (0 <= n400) by lia. assert (0 <= n100) by lia.
        assert (0 <= n4) by lia. assert (0 <= n1) by lia. lia.
      * destruct (Z.eqb_spec m 2) as [-> |]; destruct leapyear; cbn in *; lia.
    + unfold days_before_month. rewrite L. lia.
Qed.

Lemma date_add_days_spec d k d' :
  date_add_days d k = OK d' ->
  valid_date d' /\ toordinal d' = toordinal d + k.
Proof.
  unfold date_add_days.
  destruct ((0 <? toordinal d + k) && (toordinal d + k <=? MAXORDINAL)) eqn:R;
    [| discriminate].
  intros [= <-]. apply andb_true_iff in R as [R1 R2].
  apply Z.ltb_lt in R1. apply Z.leb_le in R2.
  apply ord2ymd_spec. lia.
Qed.

(** Adding a positive number of days gives a strictly later date. *)
Lemma date_add_days_later d k d' :
  valid_date d -> 0 < k -> date_add_days d k = OK d' -> date_lt d d'.
Proof.
  intros V Hk E. apply date_add_days_spec in E as [V' E].
  apply toordinal_lt_inv; [assumption .. | lia].
Qed.

Lemma weekday_range d : 0 <= weekday d <= 6.
Proof. unfold weekday. Z.div_mod_to_equations. lia. Qed.

End CalendarFacts.

(** ** Sorted lists and minima *)

Module SortFacts.
Import Spec.

Lemma list_min_Some l m :
  list_min l = Some m <-> m ∈ l /\ (forall x, x ∈ l -> m <= x).
Proof.
  revert m. induction l as [| x l IH]; intros m; cbn.
  - split; [discriminate | intros [H _]; inversion H].
  - destruct (list_min l) as [m' |] eqn:E.
    + destruct (proj1 (IH m') eq_refl) as [Hin Hle].
      split.
      * intros [= <-]. split.
        -- destruct (Z.min_spec x m') as [[_ ->] | [_ ->]];
             [left | right; exact Hin].
        -- intros y Hy. apply elem_of_cons in Hy as [-> | Hy];
             [| specialize (Hle y Hy)]; lia.
      * intros [Hm Hall]. f_equal.
        pose proof (Hall x ltac:(left)).
        pose proof (Hall m' ltac:(right; exact Hin)).
        apply elem_of_cons in Hm as [-> | Hm]; [| specialize (Hle m Hm)]; lia.
    + assert (l = []) as ->.
      { destruct l as [| y l']; [reflexivity |]. cbn in E.
        destruct (list_min l'); discriminate. }
      split.
      * intros [= <-]. split; [left |].
        intros y Hy. apply list_elem_of_singleton in Hy. lia.
      * intros [Hm _]. apply list_elem_of_singleton in Hm. congruence.
Qed.

Lemma list_min_None l : list_min l = None <-> l = [].
Proof.
  destruct l as [| x l]; cbn; [tauto |].
  destruct (list_min l); split; discriminate.
Qed.

(** [list_min] only depends on the elements of the list. *)
Lemma list_min_ext l1 l2 :
  (forall x, x ∈ l1 <-> x ∈ l2) -> list_min l1 = list_min l2.
Proof.
  intros H.
  destruct (list_min l1) as [m1 |] eqn:E1, (list_min l2) as [m2 |] eqn:E2;
    try reflexivity.
  - apply list_min_Some in E1 as [I1 L1]. apply list_min_Some in E2 as [I2 L2].
    f_equal. pose proof (L1 m2 (proj2 (H m2) I2)).
    pose proof (L2 m1 (proj1 (H m1) I1)). lia.
  - apply list_min_Some in E1 as [I1 _]. apply list_min_None in E2. subst l2.
    apply H in I1. inversion I1.
  - apply list_min_Some in E2 as [I2 _]. apply list_min_None in E1. subst l1.
    apply H in I2. inversion I2.
Qed.

(** In a sorted list the first element above a bound is the smallest one. *)
Lemma find_sorted_min l w :
  StronglySorted Z.le l ->
  find (fun t => w <? t) l = list_min (filter (fun t => w < t) l).
Proof.
  induction 1 as [| x l S IH All]; [reflexivity |].
  cbn [find]. rewrite filter_cons.
  destruct (Z.ltb_spec w x) as [Hlt | Hge].
  - rewrite decide_True by assumption. symmetry. apply list_min_Some. split; [left |].
    intros y Hy. apply elem_of_cons in Hy as [-> | Hy]; [lia |].
    apply list_elem_of_filter in Hy as [_ Hy].
    rewrite Forall_forall in All. apply All. assumption.
  - rewrite decide_False by lia. assumption.
Qed.

Lemma head_sorted_min l :
  StronglySorted Z.le l -> head l = list_min l.
Proof.
  destruct 1 as [| x l S All]; [reflexivity |].
  symmetry. apply list_min_Some. split; [left |].
  intros y Hy. apply elem_of_cons in Hy as [-> | Hy]; [lia |].
  rewrite Forall_forall in All. apply All. assumption.
Qed.

(** [weekly_advance] in terms of the configured ordinals: the smallest one
    above the reference's weekday, else the smallest one of all. *)
Lemma weekly_advance_next configured w t :
  t ∈ configured -> w < t ->
  (forall x, x ∈ configured -> w < x -> t <= x) ->
  weekly_advance configured w = Some (t - w).
Proof.
  intros Hin Hlt Hmin. unfold weekly_advance.
  rewrite (proj2 (list_min_Some (filter (fun x => w < x) configured) t));
    [reflexivity |].
  split.
  - apply list_elem_of_filter. auto.
  - intros x Hx. apply list_elem_of_filter in Hx as [Hx1 Hx2]. auto.
Qed.

Lemma weekly_advance_wrap configured w t0 :
  t0 ∈ configured ->
  (forall x, x ∈ configured -> t0 <= x /\ x <= w) ->
  weekly_advance configured w = Some (7 - w + t0).
Proof.
  intros Hin Hall. unfold weekly_advance.
  rewrite (proj2 (list_min_None (filter (fun x => w < x) configured))).
  - rewrite (proj2 (list_min_Some configured t0)); [reflexivity |].
    split; [assumption |]. intros x Hx. apply Hall, Hx.
  - apply elem_of_nil_inv. intros x Hx.
    apply list_elem_of_filter in Hx as [Hx1 Hx2].
    destruct (Hall x Hx2). lia.
Qed.

End SortFacts.

Module RecurrenceFacts.
Import Calendar Recurrence Spec CalendarFacts SortFacts.

(** *** The parser *)

Lemma parse_recurrence_rule_inv rule cfg :
  parse_recurrence_rule rule = OK cfg ->
  freq cfg = default "DAILY" (rule_parts rule !! "FREQ")
  /\ by_day cfg = by_day_codes <$> rule_parts rule !! "BYDAY"
  /\ match rule_parts rule !! "BYMONTHDAY" with
     | Some v => exists n, PyInt.int v = OK n /\ by_month_day cfg = Some n
     | None => by_month_day cfg = None
     end
  /\ match rule_parts rule !! "UNTIL" with
     | Some v => exists u, fromisoformat v = OK u /\ until cfg = Some u
     | None => until cfg = None
     end.
Proof.
  unfold parse_recurrence_rule.
  destruct (rule_parts rule !! "BYMONTHDAY") as [vb |];
    [destruct (PyInt.int vb) as [n |]; [| discriminate] |];
    (destruct (rule_parts rule !! "UNTIL") as [vu |];
     [destruct (fromisoformat vu) as [u |]; [| discriminate] |]);
    cbn; intros [= <-]; cbn; eauto 10.
Qed.

Lemma fold_add_segment_other key post parts :
  (forall s k v, s ∈ post -> PyStr.split_once "="%char s = Some (k, v) ->
                 PyStr.upper (PyStr.strip k) <> key) ->
  fold_left add_segment post parts !! key = parts !! key.
Proof.
  revert parts. induction post as [| s post IH]; intros parts H; [reflexivity |].
  cbn [fold_left]. rewrite IH.
  - unfold add_segment.
    destruct (PyStr.split_once "="%char s) as [[k v] |] eqn:E; [| reflexivity].
    apply lookup_insert_ne. eapply H; [left | exact E].
  - intros s' k v Hs'. apply H. right. exact Hs'.
Qed.

(** The value kept for a key is that of its last segment. *)
Lemma rule_parts_last rule pre seg post key value :
  PyStr.split ";"%char rule = (pre ++ seg :: post)%list ->
  PyStr.split_once "="%char seg = Some (key, value) ->
  (forall s k v, s ∈ post -> PyStr.split_once "="%char s = Some (k, v) ->
                 PyStr.upper (PyStr.strip k) <> PyStr.upper (PyStr.strip key)) ->
  rule_parts rule !! PyStr.upper (PyStr.strip key) = Some (PyStr.strip value).
Proof.
  intros Hs Hseg Hpost. unfold rule_parts. rewrite Hs, fold_left_app.
  cbn [fold_left]. rewrite fold_add_segment_other by exact Hpost.
  unfold add_segment at 1. rewrite Hseg. apply lookup_insert_eq.
Qed.

(** *** The calculator *)

Lemma compute_next_due_date_unfold today current_due rule cfg :
  parse_recurrence_rule rule = OK cfg ->
  compute_next_due_date today current_due rule =
  try! candidate <- next_date_of cfg (default today current_due);
  match candidate with
  | None => OK None
  | Some next_date =>
      match until cfg with
      | Some u => if date_ltb u next_date then OK None else OK (Some next_date)
      | None => OK (Some next_date)
      end
  end.
Proof. intros H. unfold compute_next_due_date. rewrite H. reflexivity. Qed.

Lemma compute_within_until today current_due rule cfg nd :
  parse_recurrence_rule rule = OK cfg ->
  next_date_of cfg (default today current_due) = OK (Some nd) ->
  within_until cfg nd ->
  compute_next_due_date today current_due rule = OK (Some nd).
Proof.
  intros Hp Hn Hu. rewrite (compute_next_due_date_unfold _ _ _ _ Hp), Hn. cbn.
  unfold within_until in Hu. destruct (until cfg); [rewrite Hu |]; reflexivity.
Qed.

Lemma DAY_MAP_range code v : DAY_MAP !! code = Some v -> 0 <= v <= 6.
Proof.
  intros H. apply elem_of_list_to_map_2 in H.
  repeat (apply elem_of_cons in H as [E | H]; [injection E as _ ->; lia |]).
  inversion H.
Qed.

Lemma target_days_sorted codes : StronglySorted Z.le (target_days_of codes).
Proof. apply StronglySorted_merge_sort; apply _. Qed.

Lemma elem_of_target_days codes x :
  x ∈ target_days_of codes <-> x ∈ configured_weekdays codes.
Proof. unfold target_days_of. rewrite merge_sort_Permutation. reflexivity. Qed.

Lemma target_days_range codes x : x ∈ target_days_of codes -> 0 <= x <= 6.
Proof.
  rewrite elem_of_target_days. unfold configured_weekdays.
  rewrite list_elem_of_omap. intros (c & _ & H). eapply DAY_MAP_range, H.
Qed.

(** The sorted scan of the code selects what the specification describes. *)
Lemma weekly_scan_refines codes w :
  match find (fun target => w <? target) (target_days_of codes) with
  | Some target => Some (target - w)
  | None =>
      match target_days_of codes with
      | t :: _ => Some (7 - w + t)
      | [] => None
      end
  end = weekly_advance (configured_weekdays codes) w.
Proof.
  unfold weekly_advance.
  rewrite (find_sorted_min _ _ (target_days_sorted codes)).
  rewrite (list_min_ext (filter (fun t => w < t) (target_days_of codes))
             (filter (fun t => w < t) (configured_weekdays codes))).
  2:{ intros x. rewrite !list_elem_of_filter, elem_of_target_days. reflexivity. }
  destruct (list_min (filter _ (configured_weekdays codes))); [reflexivity |].
  rewrite <- (list_min_ext (target_days_of codes) (configured_weekdays codes))
    by apply elem_of_target_days.
  rewrite <- (head_sorted_min _ (target_days_sorted codes)).
  destruct (target_days_of codes); reflexivity.
Qed.

Lemma next_date_of_weekly_byday cfg base codes delta :
  freq cfg = "WEEKLY" -> by_day cfg = Some codes ->
  weekly_advance (configured_weekdays codes) (weekday base) = Some delta ->
  next_date_of cfg base = try! nd <- date_add_days base delta; OK (Some nd).
Proof.
  intros Hf Hb Hw. unfold next_date_of. rewrite Hf, Hb.
  change (String.eqb "WEEKLY" "DAILY") with false.
  change (String.eqb "WEEKLY" "WEEKLY") with true. cbv iota.
  destruct codes as [| code codes].
  { cbn in Hw. discriminate. }
  pose proof (weekly_scan_refines (code :: codes) (weekday base)) as R.
  rewrite Hw in R.
  destruct (find _ (target_days_of (code :: codes))) as [t |].
  - injection R as <-. reflexivity.
  - destruct (target_days_of (code :: codes)) as [| t ts]; [discriminate |].
    injection R as <-. reflexivity.
Qed.

(** A BYDAY list none of whose codes is recognised leaves [target_days]
    empty, and [target_days[0]] fails. *)
Lemma next_date_of_no_known_code cfg base code codes :
  freq cfg = "WEEKLY" -> by_day cfg = Some (code :: codes) ->
  configured_weekdays (code :: codes) = [] ->
  next_date_of cfg base = Raise IndexError.
Proof.
  intros Hf Hb Hc. unfold next_date_of. rewrite Hf, Hb.
  change (String.eqb "WEEKLY" "DAILY") with false.
  change (String.eqb "WEEKLY" "WEEKLY") with true. cbv iota.
  assert (E : target_days_of (code :: codes) = []).
  { apply elem_of_nil_inv. intros x Hx.
    apply elem_of_target_days in Hx. rewrite Hc in Hx. inversion Hx. }
  rewrite E. reflexivity.
Qed.

Lemma monthrange_ndays_eq y m :
  1 <= m <= 12 -> monthrange_ndays y m = days_in_month y m.
Proof.
  intros H. unfold monthrange_ndays, days_in_month.
  month_cases m; destruct (is_leap y); reflexivity.
Qed.

Lemma days_in_month_range y m : 1 <= m <= 12 -> 28 <= days_in_month y m <= 31.
Proof.
  intros H. unfold days_in_month.
  month_cases m; destruct (is_leap y); cbn; lia.
Qed.

Lemma next_date_of_monthly cfg base :
  freq cfg = "MONTHLY" -> valid_date base ->
  next_date_of cfg base =
  let target_day :=
    match by_month_day cfg with
    | Some n => if n =? 0 then day base else n
    | None => day base
    end in
  let '(y, m) := following_month base in
  try! nd <- date_new y m (Z.min target_day (days_in_month y m)); OK (Some nd).
Proof.
  intros Hf V. unfold next_date_of. rewrite Hf.
  change (String.eqb "MONTHLY" "DAILY") with false.
  change (String.eqb "MONTHLY" "WEEKLY") with false.
  change (String.eqb "MONTHLY" "MONTHLY") with true. cbv iota zeta.
  apply check_date_fields_spec in V as (_ & Hm & _).
  unfold following_month.
  destruct (Z.eqb_spec (month base) 12) as [E | N].
  - rewrite monthrange_ndays_eq by lia. reflexivity.
  - rewrite monthrange_ndays_eq by lia. reflexivity.
Qed.

Lemma rbind_OK_inv {A B : Type} (r : result A) (k : A -> result B) b :
  rbind r k = OK b -> exists a, r = OK a /\ k a = OK b.
Proof. destruct r as [a | e]; cbn; [eauto | discriminate]. Qed.

Lemma date_add_days_Some_inv base k c :
  (try! nd <- date_add_days base k; OK (Some nd)) = OK (Some c) ->
  date_add_days base k = OK c.
Proof. intros H. apply rbind_OK_inv in H as (a & -> & [= ->]). reflexivity. Qed.

(** Every candidate is a date, later than the reference. *)
Lemma next_date_of_later cfg base c :
  valid_date base -> next_date_of cfg base = OK (Some c) ->
  valid_date c /\ date_lt base c.
Proof.
  intros V. unfold next_date_of.
  assert (Add : forall k, 0 < k ->
            (try! nd <- date_add_days base k; OK (Some nd)) = OK (Some c) ->
            valid_date c /\ date_lt base c).
  { intros k Hk H. apply date_add_days_Some_inv in H. split.
    - eapply date_add_days_spec, H.
    - eapply date_add_days_later; eassumption. }
  pose proof (weekday_range base) as W.
  destruct (String.eqb (freq cfg) "DAILY"); [apply Add; lia |].
  destruct (String.eqb (freq cfg) "WEEKLY").
  { destruct (by_day cfg) as [[| code codes] |]; try (apply Add; lia).
    destruct (find _ (target_days_of (code :: codes))) as [t |] eqn:F.
    - apply find_some in F as [_ F]. apply Z.ltb_lt in F. apply Add. lia.
    - destruct (target_days_of (code :: codes)) as [| t ts] eqn:T;
        [discriminate |].
      assert (R : 0 <= t <= 6)
        by (apply (target_days_range (code :: codes)); rewrite T; left).
      apply Add. lia. }
  destruct (String.eqb (freq cfg) "MONTHLY"); [| discriminate].
  set (target_day := match by_month_day cfg with
                     | Some n => if n =? 0 then day base else n
                     | None => day base
                     end).
  clearbody target_day.
  destruct (month base =? 12) eqn:M; cbv zeta; intros H;
    apply rbind_OK_inv in H as (a & H & [= ->]);
    apply date_new_inv in H as [-> C];
    (split; [exact C |]); unfold date_lt, date_ltb; cbn.
  - rewrite (proj2 (Z.ltb_lt _ _)) by lia. reflexivity.
  - rewrite Z.eqb_refl, (proj2 (Z.ltb_lt (month base) _)) by lia.
    apply orb_true_iff. right. reflexivity.
Qed.

Lemma compute_next_due_date_inv today current_due rule nd :
  compute_next_due_date today current_due rule = OK (Some nd) ->
  exists cfg,
    parse_recurrence_rule rule = OK cfg
    /\ next_date_of cfg (default today current_due) = OK (Some nd)
    /\ within_until cfg nd.
Proof.
  unfold compute_next_due_date. intros H.
  apply rbind_OK_inv in H as (cfg & Hp & H).
  apply rbind_OK_inv in H as ([c |] & Hn & H); [| discriminate].
  exists cfg. unfold within_until.
  destruct (until cfg) as [u |].
  - destruct (date_ltb u c) eqn:L; [discriminate |].
    injection H as <-. auto.
  - injection H as <-. auto.
Qed.

Lemma compute_next_due_date_valid today current_due rule nd :
  valid_date (default today current_due) ->
  compute_next_due_date today current_due rule = OK (Some nd) ->
  valid_date nd.
Proof.
  intros V H. apply compute_next_due_date_inv in H as (cfg & _ & H & _).
  eapply next_date_of_later; eassumption.
Qed.

End RecurrenceFacts.

Module RecurrenceTheorems.
Import Calendar Recurrence Spec CalendarFacts SortFacts RecurrenceFacts.

(** C1: for a WEEKLY rule with a BYDAY list, the next due date is the
    reference advanced to the smallest configured weekday ordinal strictly
    greater than the reference's weekday, or, when there is none, by
    [7 - weekday + smallest configured ordinal] days into the next week
    ([weekly_advance]), provided no UNTIL cutoff applies. *)
Theorem weekly_byday_next_due (today d : date) (rule : string)
    (cfg : RecurrenceConfig) (codes : list string) (delta : Z) (nd : date) :
  parse_recurrence_rule rule = OK cfg ->
  freq cfg = "WEEKLY" ->
  by_day cfg = Some codes ->
  weekly_advance (configured_weekdays codes) (weekday d) = Some delta ->
  date_add_days d delta = OK nd ->
  within_until cfg nd ->
  compute_next_due_date today (Some d) rule = OK (Some nd).
Proof.
  intros Hp Hf Hb Hw Ha Hu.
  apply (compute_within_until _ _ _ cfg); [assumption | | assumption].
  change (next_date_of cfg d = OK (Some nd)).
  rewrite (next_date_of_weekly_byday cfg d codes delta) by assumption.
  rewrite Ha. reflexivity.
Qed.

(** With BYDAY=MO,WE,FR, Thursday 2025-06-05 is followed by Friday
    2025-06-06, and Friday 2025-06-06 by Monday 2025-06-09. *)
Lemma weekly_byday_next_due_MO_WE_FR :
  compute_next_due_date (Date 2025 6 1) (Some (Date 2025 6 5))
    "FREQ=WEEKLY;BYDAY=MO,WE,FR" = OK (Some (Date 2025 6 6))
  /\ compute_next_due_date (Date 2025 6 1) (Some (Date 2025 6 6))
       "FREQ=WEEKLY;BYDAY=MO,WE,FR" = OK (Some (Date 2025 6 9)).
Proof.
  split.
  - apply (weekly_byday_next_due _ _ _
             {| freq := "WEEKLY"; by_day := Some ["MO"; "WE"; "FR"];
                by_month_day := None; until := None |}
             ["MO"; "WE"; "FR"] 1);
      vm_compute; reflexivity.
  - apply (weekly_byday_next_due _ _ _
             {| freq := "WEEKLY"; by_day := Some ["MO"; "WE"; "FR"];
                by_month_day := None; until := None |}
             ["MO"; "WE"; "FR"] 3);
      vm_compute; reflexivity.
Defined.

(** C2: for a MONTHLY rule the next due date lies in the following
    calendar month (December rolls to January of the next year), on
    BYMONTHDAY if given and else on the reference's day of the month,
    clamped to the length of that month, provided no UNTIL cutoff
    applies. *)
Theorem monthly_next_due (today d : date) (rule : string)
    (cfg : RecurrenceConfig) :
  parse_recurrence_rule rule = OK cfg ->
  freq cfg = "MONTHLY" ->
  valid_date d ->
  (forall b, by_month_day cfg = Some b -> 1 <= b) ->
  (year d < MAXYEAR \/ month d < 12) ->
  within_until cfg (monthly_target d (default (day d) (by_month_day cfg))) ->
  compute_next_due_date today (Some d) rule
  = OK (Some (monthly_target d (default (day d) (by_month_day cfg))))
  /\ valid_date (monthly_target d (default (day d) (by_month_day cfg))).
Proof.
  intros Hp Hf V Hb Hy Hu.
  assert (T : match by_month_day cfg with
              | Some n => if n =? 0 then day d else n
              | None => day d
              end = default (day d) (by_month_day cfg)).
  { destruct (by_month_day cfg) as [b |]; [| reflexivity].
    specialize (Hb b eq_refl). destruct (Z.eqb_spec b 0); [lia | reflexivity]. }
  assert (P : 1 <= default (day d) (by_month_day cfg)).
  { destruct (by_month_day cfg) as [b |]; cbn.
    - apply Hb. reflexivity.
    - apply check_date_fields_spec in V. lia. }
  set (target := default (day d) (by_month_day cfg)) in *.
  assert (C : check_date_fields (fst (following_month d)) (snd (following_month d))
                (Z.min target
                   (days_in_month (fst (following_month d))
                                  (snd (following_month d)))) = true).
  { apply check_date_fields_spec in V as (Vy & Vm & _).
    apply check_date_fields_spec. unfold following_month, MAXYEAR in *.
    destruct (Z.eqb_spec (month d) 12) as [E | N]; cbn [fst snd].
    - pose proof (days_in_month_range (year d + 1) 1 ltac:(lia)). lia.
    - pose proof (days_in_month_range (year d) (month d + 1) ltac:(lia)). lia. }
  assert (N : next_date_of cfg d = OK (Some (monthly_target d target))).
  { rewrite next_date_of_monthly by assumption. cbv zeta. rewrite T.
    unfold monthly_target. destruct (following_month d) as [y m].
    cbn [fst snd] in C. rewrite (date_new_OK _ _ _ C). reflexivity. }
  split.
  - apply (compute_within_until _ _ _ cfg); assumption.
  - unfold monthly_target, valid_date. destruct (following_month d). exact C.
Qed.

(** From 2025-01-15 with BYMONTHDAY=31 the next due date is 2025-02-28. *)
Lemma monthly_next_due_clamped :
  compute_next_due_date (Date 2025 6 1) (Some (Date 2025 1 15))
    "FREQ=MONTHLY;BYMONTHDAY=31" = OK (Some (Date 2025 2 28))
  /\ valid_date (Date 2025 2 28).
Proof.
  apply (monthly_next_due (Date 2025 6 1) (Date 2025 1 15)
           "FREQ=MONTHLY;BYMONTHDAY=31"
           {| freq := "MONTHLY"; by_day := None;
              by_month_day := Some 31; until := None |}).
  - vm_compute; reflexivity.
  - reflexivity.
  - reflexivity.
  - intros b [= <-]. lia.
  - left. vm_compute. reflexivity.
  - exact I.
Defined.

(** C4 fails as stated: FREQ=YEARLY is kept as it is by the parser, and
    the calculator returns no date where FREQ=DAILY gives the next day. *)
Lemma unknown_freq_not_daily :
  parse_recurrence_rule "FREQ=YEARLY"
  = OK {| freq := "YEARLY"; by_day := None; by_month_day := None; until := None |}
  /\ compute_next_due_date (Date 2025 6 1) (Some (Date 2025 6 10)) "FREQ=YEARLY"
     = OK None
  /\ compute_next_due_date (Date 2025 6 1) (Some (Date 2025 6 10)) "FREQ=DAILY"
     = OK (Some (Date 2025 6 11))
  /\ ~ (compute_next_due_date (Date 2025 6 1) (Some (Date 2025 6 10)) "FREQ=YEARLY"
        = compute_next_due_date (Date 2025 6 1) (Some (Date 2025 6 10)) "FREQ=DAILY").
Proof. repeat split; vm_compute; congruence. Qed.

(** C4, amended: for a rule that parses, a FREQ value that is present but
    is none of DAILY, WEEKLY and MONTHLY is kept in the configuration,
    stripped and otherwise unchanged, and the calculator answers with no
    date, without an error. *)
Theorem unknown_freq_ends_recurrence (today : date) (current_due : option date)
    (rule : string) (cfg : RecurrenceConfig) (v : string) :
  parse_recurrence_rule rule = OK cfg ->
  rule_parts rule !! "FREQ" = Some v ->
  v <> "DAILY" -> v <> "WEEKLY" -> v <> "MONTHLY" ->
  freq cfg = v /\ compute_next_due_date today current_due rule = OK None.
Proof.
  intros Hp Hv Hd Hw Hm.
  destruct (parse_recurrence_rule_inv rule cfg Hp) as (Hf & _).
  rewrite Hv in Hf. cbn in Hf. split; [exact Hf |].
  rewrite (compute_next_due_date_unfold _ _ _ cfg Hp).
  unfold next_date_of. rewrite Hf.
  rewrite (proj2 (String.eqb_neq v "DAILY") Hd).
  rewrite (proj2 (String.eqb_neq v "WEEKLY") Hw).
  rewrite (proj2 (String.eqb_neq v "MONTHLY") Hm).
  reflexivity.
Qed.

Lemma unknown_freq_ends_recurrence_YEARLY :
  freq {| freq := "YEARLY"; by_day := None; by_month_day := None; until := None |}
  = "YEARLY"
  /\ compute_next_due_date (Date 2025 6 1) (Some (Date 2025 6 10)) "FREQ=YEARLY"
     = OK None.
Proof.
  apply (unknown_freq_ends_recurrence _ _ "FREQ=YEARLY" _ "YEARLY");
    [vm_compute; reflexivity | vm_compute; reflexivity
     | discriminate | discriminate | discriminate].
Defined.

(** C5: when the rule has an UNTIL date and the candidate next date is
    later than it, the calculator returns no date, and no error; a date
    it returns is never later than UNTIL. *)
Theorem until_cutoff (today : date) (current_due : option date)
    (rule : string) (cfg : RecurrenceConfig) (u candidate : date) :
  parse_recurrence_rule rule = OK cfg ->
  until cfg = Some u ->
  next_date_of cfg (default today current_due) = OK (Some candidate) ->
  date_lt u candidate ->
  compute_next_due_date today current_due rule = OK None
  /\ (forall nd, compute_next_due_date today current_due rule = OK (Some nd) ->
                 ~ date_lt u nd).
Proof.
  intros Hp Hu Hn Hlt.
  assert (E : compute_next_due_date today current_due rule = OK None).
  { rewrite (compute_next_due_date_unfold _ _ _ cfg Hp), Hn. cbn.
    rewrite Hu. unfold date_lt in Hlt. rewrite Hlt. reflexivity. }
  split; [exact E |]. intros nd H. rewrite E in H. discriminate.
Qed.

(** FREQ=DAILY;UNTIL=2025-06-10 from 2025-06-10: the candidate 2025-06-11
    is past UNTIL. *)
Lemma until_cutoff_2025_06_10 :
  compute_next_due_date (Date 2025 6 1) (Some (Date 2025 6 10))
    "FREQ=DAILY;UNTIL=2025-06-10" = OK None
  /\ (forall nd,
        compute_next_due_date (Date 2025 6 1) (Some (Date 2025 6 10))
          "FREQ=DAILY;UNTIL=2025-06-10" = OK (Some nd) ->
        ~ date_lt (Date 2025 6 10) nd).
Proof.
  apply (until_cutoff _ _ _
           {| freq := "DAILY"; by_day := None; by_month_day := None;
              until := Some (Date 2025 6 10) |}
           (Date 2025 6 10) (Date 2025 6 11));
    vm_compute; reflexivity.
Defined.

(** No returned date is ever later than the UNTIL date of the rule. *)
Lemma compute_next_due_date_until today current_due rule cfg u nd :
  parse_recurrence_rule rule = OK cfg ->
  until cfg = Some u ->
  compute_next_due_date today current_due rule = OK (Some nd) ->
  date_ltb u nd = false.
Proof.
  intros Hp Hu H. apply compute_next_due_date_inv in H as (cfg' & Hp' & _ & W).
  rewrite Hp in Hp'. injection Hp' as <-.
  unfold within_until in W. rewrite Hu in W. exact W.
Qed.

(** C7: a non-empty BYDAY list without any recognised code makes the
    calculator fail, whatever the reference date: the unknown codes are
    filtered out, [target_days] is empty and [target_days[0]] raises
    IndexError. *)
Theorem byday_without_known_code_raises (today : date)
    (current_due : option date) (rule : string) (cfg : RecurrenceConfig)
    (code : string) (codes : list string) :
  parse_recurrence_rule rule = OK cfg ->
  freq cfg = "WEEKLY" ->
  by_day cfg = Some (code :: codes) ->
  configured_weekdays (code :: codes) = [] ->
  compute_next_due_date today current_due rule = Raise IndexError.
Proof.
  intros Hp Hf Hb Hc.
  rewrite (compute_next_due_date_unfold _ _ _ cfg Hp).
  rewrite (next_date_of_no_known_code cfg _ code codes Hf Hb Hc).
  reflexivity.
Qed.

(** FREQ=WEEKLY;BYDAY=XX from Thursday 2025-06-05. *)
Lemma byday_XX_raises :
  compute_next_due_date (Date 2025 6 1) (Some (Date 2025 6 5))
    "FREQ=WEEKLY;BYDAY=XX" = Raise IndexError.
Proof.
  apply (byday_without_known_code_raises _ _ _
           {| freq := "WEEKLY"; by_day := Some ["XX"];
              by_month_day := None; until := None |} "XX" []);
    vm_compute; reflexivity.
Defined.

(** Unknown codes next to a recognised one are dropped. *)
Example byday_unknown_code_dropped :
  compute_next_due_date (Date 2025 6 1) (Some (Date 2025 6 5))
    "FREQ=WEEKLY;BYDAY=XX,FR,mo" = OK (Some (Date 2025 6 6)).
Proof. vm_compute. reflexivity. Qed.

(** C8 fails as stated: BYMONTHDAY=35 raises nothing, the day is clamped
    to the end of the following month. *)
Lemma bymonthday_35_clamped :
  compute_next_due_date (Date 2025 6 1) (Some (Date 2025 1 15))
    "FREQ=MONTHLY;BYMONTHDAY=35" = OK (Some (Date 2025 2 28))
  /\ ~ (exists e, compute_next_due_date (Date 2025 6 1) (Some (Date 2025 1 15))
                    "FREQ=MONTHLY;BYMONTHDAY=35" = Raise e).
Proof.
  split; [vm_compute; reflexivity |].
  intros [e H]. vm_compute in H. discriminate.
Qed.

(** C8, amended: the parser hands a BYMONTHDAY outside 1..31 on unchecked.
    Above 31 it is clamped to the last day of the following month, which
    is returned, and 0 counts as absent, the reference's day of the month
    being used (both for a reference before December 9999 and when no
    UNTIL cutoff applies). Only a negative value reaches the date
    constructor unclamped: from -2^31 up to -1 it raises ValueError, and
    below -2^31, where it does not fit a C int, OverflowError. *)
Theorem bymonthday_out_of_range (today d : date) (rule : string)
    (cfg : RecurrenceConfig) (b : Z) :
  parse_recurrence_rule rule = OK cfg ->
  freq cfg = "MONTHLY" ->
  by_month_day cfg = Some b ->
  valid_date d ->
  (31 < b ->
   (year d < MAXYEAR \/ month d < 12) ->
   within_until cfg (monthly_target d 31) ->
   compute_next_due_date today (Some d) rule = OK (Some (monthly_target d 31))
   /\ day (monthly_target d 31)
      = days_in_month (fst (following_month d)) (snd (following_month d)))
  /\ (b = 0 ->
      (year d < MAXYEAR \/ month d < 12) ->
      within_until cfg (monthly_target d (day d)) ->
      compute_next_due_date today (Some d) rule
      = OK (Some (monthly_target d (day d))))
  /\ (INT_MIN <= b < 0 ->
      compute_next_due_date today (Some d) rule = Raise ValueError)
  /\ (b < INT_MIN ->
      compute_next_due_date today (Some d) rule = Raise OverflowError).
Proof.
  intros Hp Hf Hb V.
  pose proof V as V'. apply check_date_fields_spec in V' as (Vy & Vm & Vd).
  assert (Fm : 1 <= snd (following_month d) <= 12).
  { unfold following_month. destruct (Z.eqb_spec (month d) 12); cbn; lia. }
  pose proof (days_in_month_range (fst (following_month d)) _ Fm) as R.
  assert (Chk : forall t, 1 <= t -> (year d < MAXYEAR \/ month d < 12) ->
            next_date_of cfg d =
            (let target_day := if b =? 0 then day d else b in
             let '(y, m) := following_month d in
             try! nd <- date_new y m (Z.min target_day (days_in_month y m));
             OK (Some nd))).
  { intros. rewrite next_date_of_monthly by assumption. rewrite Hb. reflexivity. }
  assert (Ok : forall t, 1 <= t -> (year d < MAXYEAR \/ month d < 12) ->
            date_new (fst (following_month d)) (snd (following_month d))
              (Z.min t (days_in_month (fst (following_month d))
                                      (snd (following_month d))))
            = OK (monthly_target d t)).
  { intros t Ht Hy. unfold monthly_target.
    destruct (following_month d) as [y m] eqn:F. cbn [fst snd] in *.
    rewrite date_new_OK; [reflexivity |]. apply check_date_fields_spec.
    unfold following_month, MAXYEAR in *.
    destruct (Z.eqb_spec (month d) 12); injection F as <- <-; lia. }
  repeat split.
  - apply (compute_within_until _ _ _ cfg); [assumption | | assumption].
    change (next_date_of cfg d = OK (Some (monthly_target d 31))).
    rewrite (Chk 31) by (lia || assumption). cbv zeta.
    destruct (Z.eqb_spec b 0); [lia |].
    specialize (Ok 31 ltac:(lia) ltac:(assumption)).
    destruct (following_month d) as [y m]. cbn [fst snd] in *.
    replace (Z.min b (days_in_month y m)) with (Z.min 31 (days_in_month y m))
      by lia.
    rewrite Ok. reflexivity.
  - unfold monthly_target. destruct (following_month d) as [y m].
    cbn [fst snd day] in *. lia.
  - intros -> Hy Hu.
    apply (compute_within_until _ _ _ cfg); [assumption | | assumption].
    change (next_date_of cfg d = OK (Some (monthly_target d (day d)))).
    rewrite (Chk (day d)) by (lia || assumption). cbv zeta.
    change (0 =? 0) with true. cbv iota.
    specialize (Ok (day d) ltac:(lia) Hy).
    destruct (following_month d) as [y m]. cbn [fst snd] in *.
    rewrite Ok. reflexivity.
  - intros Hneg.
    rewrite (compute_next_due_date_unfold _ _ _ cfg Hp).
    change (default today (Some d)) with d.
    rewrite next_date_of_monthly by assumption. rewrite Hb. cbv zeta.
    destruct (Z.eqb_spec b 0); [lia |].
    destruct (following_month d) as [y m] eqn:F. cbn [fst snd] in *.
    replace (Z.min b (days_in_month y m)) with b by lia.
    assert (Fy : 1 <= y <= 10000).
    { unfold following_month in F.
      destruct (Z.eqb_spec (month d) 12); injection F as <- <-; lia. }
    unfold date_new.
    assert (Fits : fits_int y && fits_int m && fits_int b = true).
    { unfold fits_int, INT_MIN, INT_MAX in *.
      rewrite !andb_true_iff, !Z.leb_le. lia. }
    rewrite Fits.
    destruct (check_date_fields y m b) eqn:C; [| reflexivity].
    apply check_date_fields_spec in C. lia.
  - intros Hlow.
    rewrite (compute_next_due_date_unfold _ _ _ cfg Hp).
    change (default today (Some d)) with d.
    rewrite next_date_of_monthly by assumption. rewrite Hb. cbv zeta.
    assert (b < 0) by (unfold INT_MIN in Hlow; lia).
    destruct (Z.eqb_spec b 0); [lia |].
    destruct (following_month d) as [y m]. cbn [fst snd] in *.
    replace (Z.min b (days_in_month y m)) with b by lia.
    unfold date_new.
    assert (Fits : fits_int b = false).
    { unfold fits_int. apply andb_false_iff. left. apply Z.leb_gt. exact Hlow. }
    rewrite Fits, andb_false_r. reflexivity.
Qed.

Lemma bymonthday_out_of_range_examples :
  compute_next_due_date (Date 2025 6 1) (Some (Date 2025 1 15))
    "FREQ=MONTHLY;BYMONTHDAY=35" = OK (Some (Date 2025 2 28))
  /\ compute_next_due_date (Date 2025 6 1) (Some (Date 2025 1 15))
       "FREQ=MONTHLY;BYMONTHDAY=0" = OK (Some (Date 2025 2 15))
  /\ compute_next_due_date (Date 2025 6 1) (Some (Date 2025 1 15))
       "FREQ=MONTHLY;BYMONTHDAY=-1" = Raise ValueError
  /\ compute_next_due_date (Date 2025 6 1) (Some (Date 2025 1 15))
       "FREQ=MONTHLY;BYMONTHDAY=-2147483649" = Raise OverflowError.
Proof.
  split; [| split; [| split]].
  - refine (proj1 (proj1 (bymonthday_out_of_range (Date 2025 6 1)
              (Date 2025 1 15) "FREQ=MONTHLY;BYMONTHDAY=35"
              {| freq := "MONTHLY"; by_day := None;
                 by_month_day := Some 35; until := None |} 35 _ _ _ _) _ _ _));
      try (vm_compute; reflexivity); left; vm_compute; reflexivity.
  - refine (proj1 (proj2 (bymonthday_out_of_range (Date 2025 6 1)
              (Date 2025 1 15) "FREQ=MONTHLY;BYMONTHDAY=0"
              {| freq := "MONTHLY"; by_day := None;
                 by_month_day := Some 0; until := None |} 0 _ _ _ _)) _ _ _);
      try (vm_compute; reflexivity); left; vm_compute; reflexivity.
  - refine (proj1 (proj2 (proj2 (bymonthday_out_of_range (Date 2025 6 1)
              (Date 2025 1 15) "FREQ=MONTHLY;BYMONTHDAY=-1"
              {| freq := "MONTHLY"; by_day := None;
                 by_month_day := Some (-1); until := None |} (-1) _ _ _ _))) _);
      try (vm_compute; reflexivity).
    split; vm_compute; [discriminate | reflexivity].
  - refine (proj2 (proj2 (proj2 (bymonthday_out_of_range (Date 2025 6 1)
              (Date 2025 1 15) "FREQ=MONTHLY;BYMONTHDAY=-2147483649"
              {| freq := "MONTHLY"; by_day := None;
                 by_month_day := Some (-2147483649); until := None |}
              (-2147483649) _ _ _ _))) _);
      vm_compute; reflexivity.
Defined.

(** C9: a date returned by the calculator is strictly later than the
    reference date, for every rule. *)
Theorem next_due_date_later (today : date) (current_due : option date)
    (rule : string) (nd : date) :
  valid_date (default today current_due) ->
  compute_next_due_date today current_due rule = OK (Some nd) ->
  date_lt (default today current_due) nd.
Proof.
  intros V H. apply compute_next_due_date_inv in H as (cfg & _ & H & _).
  eapply next_date_of_later; eassumption.
Qed.

Lemma next_due_date_later_monthly :
  date_lt (Date 2025 1 31) (Date 2025 2 28).
Proof.
  apply (next_due_date_later (Date 2025 6 1) (Some (Date 2025 1 31))
           "FREQ=MONTHLY;UNTIL=2025-12-31" (Date 2025 2 28));
    vm_compute; reflexivity.
Defined.

(** C10 fails as stated: a malformed BYMONTHDAY segment followed by a
    well-formed one is silently replaced, the parser raises nothing. *)
Lemma bymonthday_overridden :
  parse_recurrence_rule "FREQ=MONTHLY;BYMONTHDAY=XX;BYMONTHDAY=5"
  = OK {| freq := "MONTHLY"; by_day := None;
          by_month_day := Some 5; until := None |}
  /\ ~ (exists e, parse_recurrence_rule "FREQ=MONTHLY;BYMONTHDAY=XX;BYMONTHDAY=5"
                  = Raise e).
Proof.
  split; [vm_compute; reflexivity |].
  intros [e H]. vm_compute in H. discriminate.
Qed.

(** C10, amended: the parser raises ValueError whenever the value of the
    last BYMONTHDAY segment of the rule, the one it keeps, is not a
    decimal integer for [int()]. *)
Theorem bymonthday_malformed_raises (rule : string) (pre : list string)
    (seg : string) (post : list string) (key value : string) :
  PyStr.split ";"%char rule = (pre ++ seg :: post)%list ->
  PyStr.split_once "="%char seg = Some (key, value) ->
  PyStr.upper (PyStr.strip key) = "BYMONTHDAY" ->
  (forall s k v, s ∈ post -> PyStr.split_once "="%char s = Some (k, v) ->
                 PyStr.upper (PyStr.strip k) <> "BYMONTHDAY") ->
  (forall n, PyInt.int (PyStr.strip value) <> OK n) ->
  parse_recurrence_rule rule = Raise ValueError.
Proof.
  intros Hs Hseg Hk Hpost Hint.
  assert (L : rule_parts rule !! "BYMONTHDAY" = Some (PyStr.strip value)).
  { rewrite <- Hk. apply (rule_parts_last rule pre seg post key value);
      [assumption .. |]. rewrite Hk. exact Hpost. }
  unfold parse_recurrence_rule. rewrite L.
  unfold PyInt.int in *.
  match goal with
  | |- context [match ?p with Some n => OK n | None => Raise ValueError end] =>
      destruct p as [n |]
  end.
  - exfalso. apply (Hint n). reflexivity.
  - reflexivity.
Qed.

Lemma bymonthday_malformed_raises_XX :
  parse_recurrence_rule "FREQ=MONTHLY;BYMONTHDAY=XX" = Raise ValueError.
Proof.
  apply (bymonthday_malformed_raises _ ["FREQ=MONTHLY"] "BYMONTHDAY=XX" []
           "BYMONTHDAY" "XX").
  - vm_compute. reflexivity.
  - vm_compute. reflexivity.
  - vm_compute. reflexivity.
  - intros s k v H. inversion H.
  - intros n. vm_compute. discriminate.
Defined.

End RecurrenceTheorems.

(** ** The instance generator *)

Module GeneratorFacts.
Import Calendar Recurrence Generator Spec ProofDefs.
Import CalendarFacts RecurrenceFacts.

Section WithEnv.
Variable env : Env.

Lemma datetime_new_valid d :
  valid_date d -> datetime_new (year d) (month d) (day d) = OK (midnight d).
Proof.
  intros V. unfold datetime_new. rewrite (date_new_OK _ _ _ V).
  destruct d. reflexivity.
Qed.

Lemma generate_next_instance_unfold task w rule next_due :
  recurrence_rule task = Some rule -> rule <> "" ->
  compute_next_due_date (today env) (due_date task) rule = OK (Some next_due) ->
  generate_next_instance env task w =
  let '(new_task, w1) := task_built env task rule next_due w in
  match for_each (inherit_reminder env task new_task next_due)
                 (reminders_of (task_id task) w) w1 with
  | (w', OK _) => (w', OK (Some new_task))
  | (w', Raise e) => (w', Raise e)
  end.
Proof.
  intros Hr Hne Hc. unfold generate_next_instance. rewrite Hr.
  destruct rule as [| c rule]; [congruence |].
  unfold bind at 1. unfold lift. rewrite Hc.
  unfold task_built, tags_content, copy_tags, bind at 1.
  destruct (tags task) as [l |]; [destruct (heap w !! l) as [[| x xs] |] |];
    destruct (recurrence_group_id task) as [g |]; cbn;
    rewrite ?Nat.add_0_r, ?Nat.add_1_r; reflexivity.
Qed.

Lemma bind_lift {A B : Type} (r : result A) (k : A -> M B) w :
  bind (lift r) k w
  = match r with OK a => k a w | Raise e => (w, Raise e) end.
Proof. reflexivity. Qed.

(** The state after one more reading of the clock. *)
Lemma bind_utcnow {B : Type} (k : datetime -> M B) w :
  bind (utcnow env) k w
  = k (utcnow_at env (clock_calls w))
      {| uuid_calls := uuid_calls w; clock_calls := S (clock_calls w);
         heap := heap w; reminders_table := reminders_table w;
         session_new := session_new w |}.
Proof. reflexivity. Qed.

(** One turn of the loop, for a reminder with a trigger time. *)
Lemma inherit_reminder_step task new_task due next_due r trigger nt w :
  due_date task = Some due -> valid_date due -> valid_date next_due ->
  trigger_at r = Some trigger ->
  shifted_trigger due next_due trigger = OK nt ->
  exists w' added,
    inherit_reminder env task new_task next_due r w = (w', OK tt)
    /\ session_new w' = (session_new w ++ map EReminder added)%list
    /\ map reminder_view added
       = (if datetime_ltb (utcnow_at env (clock_calls w)) nt
          then [(task_id new_task, task_user_id task, Some nt, PENDING)]
          else [])
    /\ heap w' = heap w /\ reminders_table w' = reminders_table w.
Proof.
  intros Hd Vd Vn Ht Hs. unfold inherit_reminder. rewrite Hd, Ht.
  rewrite (datetime_new_valid due Vd), bind_lift. cbv beta iota zeta.
  rewrite (datetime_new_valid next_due Vn), bind_lift. cbv beta iota.
  rewrite Hs, bind_lift. cbv beta iota.
  rewrite bind_utcnow.
  destruct (datetime_ltb (utcnow_at env (clock_calls w)) nt).
  - eexists _, [_]. split; [reflexivity |].
    cbn [session_new map reminder_view reminder_task_id reminder_user_id
         trigger_at status heap reminders_table].
    repeat split; reflexivity.
  - eexists _, []. split; [reflexivity |].
    cbn [session_new map heap reminders_table]. rewrite app_nil_r.
    repeat split; reflexivity.
Qed.

Lemma inherit_reminder_skip task new_task next_due r w :
  due_date task = None \/ trigger_at r = None ->
  inherit_reminder env task new_task next_due r w = (w, OK tt).
Proof.
  intros [H | H]; unfold inherit_reminder; rewrite H;
    [| destruct (due_date task)]; reflexivity.
Qed.

(** The loop never fails when the shifted trigger times are in range;
    it only adds reminders, all of them pending ones of the new task. *)
Lemma for_each_inherit_ok task new_task next_due l :
  (forall due, due_date task = Some due ->
               valid_date due /\ valid_date next_due) ->
  (forall due r trigger, due_date task = Some due -> r ∈ l ->
     trigger_at r = Some trigger ->
     exists nt, shifted_trigger due next_due trigger = OK nt) ->
  forall w, exists w' added,
    for_each (inherit_reminder env task new_task next_due) l w = (w', OK tt)
    /\ session_new w' = (session_new w ++ map EReminder added)%list
    /\ heap w' = heap w /\ reminders_table w' = reminders_table w.
Proof.
  intros Vd. induction l as [| r l IH]; intros Hrep w.
  - exists w, []. cbn. rewrite app_nil_r. auto.
  - cbn [for_each]. unfold bind at 1.
    assert (Step : exists w1 a1,
              inherit_reminder env task new_task next_due r w = (w1, OK tt)
              /\ session_new w1 = (session_new w ++ map EReminder a1)%list
              /\ heap w1 = heap w /\ reminders_table w1 = reminders_table w).
    { destruct (due_date task) as [due |] eqn:Hd;
        [destruct (trigger_at r) as [t |] eqn:Ht |].
      - destruct (Hrep due r t eq_refl ltac:(left) Ht) as [nt Hs].
        destruct (inherit_reminder_step task new_task due next_due r t nt w
                    Hd (proj1 (Vd due eq_refl)) (proj2 (Vd due eq_refl)) Ht Hs)
          as (w1 & a1 & E & S1 & _ & H1 & R1).
        exists w1, a1. auto.
      - exists w, []. rewrite inherit_reminder_skip by auto. cbn.
        rewrite app_nil_r. auto.
      - exists w, []. rewrite inherit_reminder_skip by auto. cbn.
        rewrite app_nil_r. auto. }
    destruct Step as (w1 & a1 & E & S1 & H1 & R1). rewrite E.
    destruct (IH (fun due r' t Hd Hr' => Hrep due r' t Hd ltac:(right; exact Hr')) w1)
      as (w' & a' & E' & S' & H' & R').
    exists w', (a1 ++ a')%list. rewrite E', S', S1, map_app, <- app_assoc.
    repeat split; congruence.
Qed.

(** With a clock that shows [now] throughout, the loop adds exactly the
    reminders of [inherited_reminder], in the order of the list. *)
Lemma for_each_inherit_exact task new_task due next_due now l :
  due_date task = Some due -> valid_date due -> valid_date next_due ->
  (forall n, utcnow_at env n = now) ->
  (forall r trigger, r ∈ l -> trigger_at r = Some trigger ->
     exists nt, shifted_trigger due next_due trigger = OK nt) ->
  forall w, exists w' added,
    for_each (inherit_reminder env task new_task next_due) l w = (w', OK tt)
    /\ session_new w' = (session_new w ++ map EReminder added)%list
    /\ map reminder_view added
       = flat_map (inherited_reminder due next_due now
                     (task_id new_task) (task_user_id task)) l.
Proof.
  intros Hd Vd Vn Hclock. induction l as [| r l IH]; intros Hrep w.
  - exists w, []. cbn. rewrite app_nil_r. auto.
  - cbn [for_each flat_map]. unfold bind at 1.
    assert (Step : exists w1 a1,
              inherit_reminder env task new_task next_due r w = (w1, OK tt)
              /\ session_new w1 = (session_new w ++ map EReminder a1)%list
              /\ map reminder_view a1
                 = inherited_reminder due next_due now
                     (task_id new_task) (task_user_id task) r).
    { unfold inherited_reminder.
      destruct (trigger_at r) as [t |] eqn:Ht.
      - destruct (Hrep r t ltac:(left) Ht) as [nt Hs]. rewrite Hs.
        destruct (inherit_reminder_step task new_task due next_due r t nt w
                    Hd Vd Vn Ht Hs)
          as (w1 & a1 & E & S1 & M1 & _).
        rewrite Hclock in M1. exists w1, a1. auto.
      - exists w, []. rewrite inherit_reminder_skip by auto. cbn.
        rewrite app_nil_r. auto. }
    destruct Step as (w1 & a1 & E & S1 & M1). rewrite E.
    destruct (IH (fun r' t Hr' => Hrep r' t ltac:(right; exact Hr')) w1)
      as (w' & a' & E' & S' & M').
    exists w', (a1 ++ a')%list.
    rewrite E', S', S1, !map_app, <- app_assoc, M1, M'. auto.
Qed.

End WithEnv.
End GeneratorFacts.

Module GeneratorTheorems.
Import Calendar Recurrence Generator Spec ProofDefs.
Import CalendarFacts RecurrenceFacts GeneratorFacts.

(** C3: when a successor is generated for a task with a due date, every
    reminder of the task that has a trigger time, whatever its status, is
    shifted to [midnight(next due) - (midnight(due) - trigger)]; a pending
    reminder of the new task is added exactly when the shifted time is
    strictly later than the clock, and the others are dropped without an
    error. *)
Theorem reminders_inherited (env : Env) (task : Task) (w : World)
    (rule : string) (due next_due : date) (now : datetime) :
  recurrence_rule task = Some rule -> rule <> "" ->
  due_date task = Some due -> valid_date due ->
  compute_next_due_date (today env) (Some due) rule = OK (Some next_due) ->
  (forall n, utcnow_at env n = now) ->
  triggers_representable task next_due w ->
  exists w' new_task added,
    generate_next_instance env task w = (w', OK (Some new_task))
    /\ session_new w'
       = (session_new w ++ ETask new_task :: map EReminder added)%list
    /\ map reminder_view added
       = flat_map (inherited_reminder due next_due now
                     (task_id new_task) (task_user_id task))
                  (reminders_of (task_id task) w).
Proof.
  intros Hr Hne Hd Vd Hc Hclock Hrep.
  assert (Vn : valid_date next_due)
    by (eapply (compute_next_due_date_valid (today env) (Some due)); eassumption).
  rewrite <- Hd in Hc.
  rewrite (generate_next_instance_unfold env task w rule next_due Hr Hne Hc).
  destruct (task_built env task rule next_due w) as [new_task w1] eqn:B.
  destruct (for_each_inherit_exact env task new_task due next_due now
              (reminders_of (task_id task) w) Hd Vd Vn Hclock
              (fun r t Hin Ht => Hrep due r t Hd Hin Ht) w1)
    as (w' & added & E & S & M).
  exists w', new_task, added. rewrite E. split; [reflexivity |].
  split; [| exact M].
  rewrite S. unfold task_built in B. injection B as <- <-. cbn [session_new].
  rewrite <- app_assoc. reflexivity.
Qed.

(** C6: the successor of a recurring task carries the title, description,
    owner, priority and rule of the source, the computed due date and
    [completed = false]; its tags are a new list object, distinct from the
    source's, with the strings of the source's tags; its group id is the
    source's, or the value of a [uuid4()] call when the source has none. *)
Theorem successor_inherits (env : Env) (task : Task) (w : World)
    (rule : string) (next_due : date) :
  recurrence_rule task = Some rule -> rule <> "" ->
  compute_next_due_date (today env) (due_date task) rule = OK (Some next_due) ->
  (forall due, due_date task = Some due -> valid_date due) ->
  triggers_representable task next_due w ->
  exists w' new_task new_tags,
    generate_next_instance env task w = (w', OK (Some new_task))
    /\ title new_task = title task
    /\ description new_task = description task
    /\ task_user_id new_task = task_user_id task
    /\ priority new_task = priority task
    /\ recurrence_rule new_task = Some rule
    /\ due_date new_task = Some next_due
    /\ completed new_task = false
    /\ tags new_task = Some new_tags
    /\ heap w !! new_tags = None
    /\ (forall l, tags task = Some l -> is_Some (heap w !! l) -> new_tags <> l)
    /\ heap w' !! new_tags = Some (tags_content w task)
    /\ (forall l, l <> new_tags -> heap w' !! l = heap w !! l)
    /\ recurrence_group_id new_task
       = Some (match recurrence_group_id task with
               | Some g => g
               | None => uuid4_at env (uuid_calls w)
               end).
Proof.
  intros Hr Hne Hc Vd Hrep.
  rewrite (generate_next_instance_unfold env task w rule next_due Hr Hne Hc).
  destruct (task_built env task rule next_due w) as [new_task w1] eqn:B.
  destruct (for_each_inherit_ok env task new_task next_due
              (reminders_of (task_id task) w)) with (w := w1)
    as (w' & added & E & _ & H' & _).
  { intros due Hd. split; [apply Vd, Hd |].
    rewrite Hd in Hc.
    eapply (compute_next_due_date_valid (today env) (Some due)); [| eassumption].
    apply Vd, Hd. }
  { exact Hrep. }
  rewrite E. unfold task_built in B. injection B as <- <-.
  eexists w', _, (fresh (dom (heap w))).
  rewrite H'. cbn.
  assert (F : heap w !! fresh (dom (heap w)) = None)
    by apply not_elem_of_dom, is_fresh.
  repeat split.
  - exact F.
  - intros l _ [x Hx] <-. rewrite F in Hx. discriminate.
  - apply lookup_insert_eq.
  - intros l Hl. apply lookup_insert_ne. congruence.
Qed.

Lemma sample_triggers_representable :
  triggers_representable Sample.task (Date 2025 6 11) Sample.world.
Proof.
  intros due r t Hd Hin Ht. injection Hd as <-.
  vm_compute in Hin. apply list_elem_of_singleton in Hin. subst r.
  injection Ht as <-. eexists. vm_compute. reflexivity.
Defined.

Lemma reminders_inherited_sample :
  exists w' new_task added,
    generate_next_instance (Sample.env_at Sample.before_trigger)
      Sample.task Sample.world = (w', OK (Some new_task))
    /\ session_new w'
       = (session_new Sample.world ++ ETask new_task :: map EReminder added)%list
    /\ map reminder_view added
       = flat_map (inherited_reminder (Date 2025 6 10) (Date 2025 6 11)
                     Sample.before_trigger
                     (task_id new_task) (task_user_id Sample.task))
                  (reminders_of (task_id Sample.task) Sample.world).
Proof.
  apply (reminders_inherited (Sample.env_at Sample.before_trigger)
           Sample.task Sample.world "FREQ=DAILY").
  - reflexivity.
  - discriminate.
  - reflexivity.
  - vm_compute. reflexivity.
  - vm_compute. reflexivity.
  - reflexivity.
  - exact sample_triggers_representable.
Defined.

(** Due 2025-06-10 with a reminder at 2025-06-09T09:00: the successor is
    due 2025-06-11 and, the clock being before 2025-06-10T09:00, gets a
    pending reminder at that time, though the source's was cancelled. *)
Example generate_sample_before :
  let '(w', r) := generate_next_instance (Sample.env_at Sample.before_trigger)
                    Sample.task Sample.world in
  match r with
  | OK (Some t) => due_date t = Some (Date 2025 6 11)
  | _ => False
  end
  /\ match session_new w' with
     | [ETask t; EReminder r'] =>
         reminder_view r'
         = (task_id t, "user-1",
            Some (DateTime (Date 2025 6 10) 9 0 0 0 None), "pending")
     | _ => False
     end.
Proof. vm_compute. split; reflexivity. Qed.

(** With the clock at 2025-06-10T09:00 no reminder is produced. *)
Example generate_sample_at_trigger :
  let '(w', r) := generate_next_instance (Sample.env_at Sample.at_trigger)
                    Sample.task Sample.world in
  match r with
  | OK (Some t) => due_date t = Some (Date 2025 6 11)
  | _ => False
  end
  /\ match session_new w' with
     | [ETask t] => True
     | _ => False
     end.
Proof. vm_compute. split; reflexivity. Qed.

Lemma successor_inherits_sample :
  exists w' new_task new_tags,
    generate_next_instance (Sample.env_at Sample.before_trigger)
      Sample.task Sample.world = (w', OK (Some new_task))
    /\ title new_task = "water the plants"
    /\ description new_task = None
    /\ task_user_id new_task = "user-1"
    /\ priority new_task = "high"
    /\ recurrence_rule new_task = Some "FREQ=DAILY"
    /\ due_date new_task = Some (Date 2025 6 11)
    /\ completed new_task = false
    /\ tags new_task = Some new_tags
    /\ heap Sample.world !! new_tags = None
    /\ (forall l, tags Sample.task = Some l ->
                  is_Some (heap Sample.world !! l) -> new_tags <> l)
    /\ heap w' !! new_tags = Some ["home"; "garden"]
    /\ (forall l, l <> new_tags -> heap w' !! l = heap Sample.world !! l)
    /\ recurrence_group_id new_task = Some 1000.
Proof.
  apply (successor_inherits (Sample.env_at Sample.before_trigger)
           Sample.task Sample.world "FREQ=DAILY" (Date 2025 6 11)).
  - reflexivity.
  - discriminate.
  - vm_compute. reflexivity.
  - intros due [= <-]. vm_compute. reflexivity.
  - exact sample_triggers_representable.
Defined.

End GeneratorTheorems.
